(** * Fambul Tik backend: the relationship write path

    A shallow embedding of the Express handlers of [server.js] (the
    transactional variant) and of the older variant of the same server
    that inserts relationships with a single statement.

    The handlers are embedded in a small state-and-exception monad.  The
    state holds the committed database, the working copy of the
    transaction open on the pooled client, the handler's [client]
    variable, the random identifier supply and the trace of what the
    handler did to the outside world (pool, statements, responses).
    Whether [pool.connect] or a statement fails for a reason the tables
    do not explain (lost connection, timeout) is decided by the
    environment.  Console output is not part of the model. *)

From Stdlib Require Import String List Bool Arith Lia.
Import ListNotations.
Open Scope string_scope.
Open Scope list_scope.

Set Implicit Arguments.

(** ** Data model *)

(** Identifiers are UUIDs, which reach the handlers as strings. *)
Definition uuid := string.

(** A row of [members]. *)
Record Member := mkMember {
  m_id : uuid;
  first_name : string;
  middle_name : option string;
  last_name : string;
  dob : option string;
  dod : option string;
  is_alive : bool
}.

(** A row of [relationship_types]; [inverse_type_id] is a nullable column. *)
Record RelationshipType := mkRelationshipType {
  rt_id : uuid;
  name : string;
  inverse_type_id : option uuid
}.

(** A row of [relationships]: "member_id_1 is <type> of member_id_2". *)
Record Relationship := mkRelationship {
  r_id : uuid;
  member_id_1 : uuid;
  relationship_type_id : uuid;
  member_id_2 : uuid
}.

(** The three tables.  A table is the list of its rows in insertion order;
    no uniqueness is assumed of any column. *)
Record DB := mkDB {
  members : list Member;
  relationship_types : list RelationshipType;
  relationships : list Relationship
}.

Definition with_relationships (rs : list Relationship) (db : DB) : DB :=
  mkDB (members db) (relationship_types db) rs.

Definition with_members (ms : list Member) (db : DB) : DB :=
  mkDB ms (relationship_types db) (relationships db).

(** ** Errors raised inside a handler *)

Inductive Exn :=
| PgError (code : string)   (* a rejected pg call; [code] is [err.code] *)
| TypeError.                (* a property read on [undefined] *)

Definition err_code (e : Exn) : option string :=
  match e with
  | PgError c => Some c
  | TypeError => None
  end.

(** SQLSTATE of a foreign-key violation. *)
Definition foreign_key_violation : Exn := PgError "23503".

(** ** The statements the handlers send *)

Inductive Sql :=
| BEGIN
| COMMIT
| ROLLBACK
  (* INSERT INTO relationships (id, member_id_1, relationship_type_id,
     member_id_2) VALUES ($1, $2, $3, $4) *)
| INSERT_relationship (i m1 t m2 : uuid)
  (* SELECT inverse_type_id FROM relationship_types WHERE id = $1 *)
| SELECT_inverse_type_id (t : uuid)
  (* SELECT id FROM relationships WHERE member_id_1 = $1
     AND relationship_type_id = $2 AND member_id_2 = $3 *)
| SELECT_relationship_id (m1 t m2 : uuid)
  (* SELECT member_id_1, member_id_2, relationship_type_id
     FROM relationships WHERE id = $1 *)
| SELECT_relationship (i : uuid)
  (* DELETE FROM relationships WHERE member_id_1 = $1
     AND relationship_type_id = $2 AND member_id_2 = $3 *)
| DELETE_relationship_matching (m1 t m2 : uuid)
  (* UPDATE relationships SET member_id_1 = $1, relationship_type_id = $2,
     member_id_2 = $3 WHERE id = $4 RETURNING * *)
| UPDATE_relationship (m1 t m2 i : uuid)
  (* DELETE FROM relationships WHERE id = $1 *)
| DELETE_relationship (i : uuid)
  (* DELETE FROM members WHERE id = $1 RETURNING * *)
| DELETE_member (i : uuid)
  (* INSERT INTO relationships (member_id_1, member_id_2,
     relationship_type_id) VALUES ($1, $2, $3) RETURNING * *)
| INSERT_relationship_returning (m1 m2 t : uuid).

(** ** What each statement does to the tables *)

Definition member_exists (db : DB) (m : uuid) : bool :=
  existsb (fun x => m_id x =? m) (members db).

Definition type_exists (db : DB) (t : uuid) : bool :=
  existsb (fun x => rt_id x =? t) (relationship_types db).

(** Modelled from the spec: the schema is not part of the sources.  The
    referential invariant of the data model ([member_id_1] and
    [member_id_2] reference existing members, [relationship_type_id] an
    existing type) is what a relationship row must satisfy to be written. *)
Definition fk_ok (db : DB) (m1 t m2 : uuid) : bool :=
  member_exists db m1 && type_exists db t && member_exists db m2.

(** Modelled from the spec: the foreign keys of [relationships] on
    [members] are declared in the schema, which is not part of the
    sources.  A member is protected from deletion while a relationship
    row references it as [member_id_1] or [member_id_2]. *)
Definition member_referenced (db : DB) (m : uuid) : bool :=
  existsb (fun r => (member_id_1 r =? m) || (member_id_2 r =? m))
          (relationships db).

(** The WHERE clause [member_id_1 = $1 AND relationship_type_id = $2 AND
    member_id_2 = $3]. *)
Definition matches (m1 t m2 : uuid) (r : Relationship) : bool :=
  (member_id_1 r =? m1) && (relationship_type_id r =? t) && (member_id_2 r =? m2).

(** The WHERE clause [id = $1] on [relationships]. *)
Definition has_id (i : uuid) (r : Relationship) : bool := r_id r =? i.

(** The result of a statement: an error, or the returned rows and the
    tables afterwards. *)
Definition Exec (T : Type) := DB -> Exn + (list T * DB).

Definition insert_relationship (i m1 t m2 : uuid) : Exec Relationship :=
  fun db =>
    if fk_ok db m1 t m2
    then inr ([], with_relationships (relationships db ++ [mkRelationship i m1 t m2]) db)
    else inl foreign_key_violation.

Definition insert_relationship_returning (i m1 m2 t : uuid) : Exec Relationship :=
  fun db =>
    if fk_ok db m1 t m2
    then inr ([mkRelationship i m1 t m2],
              with_relationships (relationships db ++ [mkRelationship i m1 t m2]) db)
    else inl foreign_key_violation.

Definition select_inverse_type_id (t : uuid) : Exec (option uuid) :=
  fun db =>
    inr (map inverse_type_id (filter (fun x => rt_id x =? t) (relationship_types db)), db).

Definition select_relationship_id (m1 t m2 : uuid) : Exec uuid :=
  fun db => inr (map r_id (filter (matches m1 t m2) (relationships db)), db).

(** The rows carry the three selected columns; the [r_id] of a returned
    record is the identifier that was asked for. *)
Definition select_relationship (i : uuid) : Exec Relationship :=
  fun db => inr (filter (has_id i) (relationships db), db).

Definition delete_relationship_matching (m1 t m2 : uuid) : Exec Relationship :=
  fun db =>
    inr ([], with_relationships
               (filter (fun r => negb (matches m1 t m2 r)) (relationships db)) db).

Definition delete_relationship (i : uuid) : Exec Relationship :=
  fun db =>
    inr ([], with_relationships
               (filter (fun r => negb (has_id i r)) (relationships db)) db).

Definition set_relationship (m1 t m2 i : uuid) (r : Relationship) : Relationship :=
  if has_id i r then mkRelationship (r_id r) m1 t m2 else r.

Definition update_relationship (m1 t m2 i : uuid) : Exec Relationship :=
  fun db =>
    if existsb (has_id i) (relationships db) && negb (fk_ok db m1 t m2)
    then inl foreign_key_violation
    else
      let rs := map (set_relationship m1 t m2 i) (relationships db) in
      inr (filter (has_id i) rs, with_relationships rs db).

Definition delete_member (i : uuid) : Exec Member :=
  fun db =>
    let hit := filter (fun m => m_id m =? i) (members db) in
    match hit with
    | [] => inr ([], db)
    | _ :: _ =>
        if member_referenced db i
        then inl foreign_key_violation
        else inr (hit, with_members (filter (fun m => negb (m_id m =? i)) (members db)) db)
    end.

(** ** Responses, trace and state *)

Inductive Json :=
| JMessage (message : string)                       (* { message } *)
| JError (error : string)                           (* { error } *)
| JRelationship (row : Relationship)                (* a relationships row *)
| JMemberDeleted (message : string) (member : Member) (* { message, member } *)
| JUndefined.                                       (* [rows[0]] of no rows *)

Record Response := mkResponse { status : nat; body : Json }.

(** What a handler does to the outside world. *)
Inductive Event :=
| Acquire                 (* pool.connect() resolved *)
| AcquireError            (* pool.connect() rejected *)
| Release                 (* client.release() *)
| Query (q : Sql)         (* a statement that succeeded *)
| QueryError (q : Sql)    (* a statement that was rejected *)
| Respond (r : Response). (* res.status(..).json(..) *)

Inductive Client := PoolClient.

Record State := mkState {
  durable : DB;            (* the committed tables *)
  txn : option DB;         (* working copy of the transaction open on the client *)
  client : option Client;  (* the handler's [let client;], [None] for undefined *)
  tick : nat;              (* number of pool and statement calls made so far *)
  uuid_ctr : nat;          (* number of identifiers drawn so far *)
  log : list Event         (* the trace so far, newest event first *)
}.

(** The environment: which call fails for an outside reason, and the
    identifiers [uuidv4()] returns. *)
Record Env := mkEnv {
  fault : nat -> option Exn;
  uuidv4_at : nat -> uuid
}.

(** A state at rest: no transaction open, nothing drawn, nothing logged. *)
Definition at_rest (db : DB) : State := mkState db None None 0 0 [].

Definition emit (ev : Event) (s : State) : State :=
  mkState (durable s) (txn s) (client s) (tick s) (uuid_ctr s) (ev :: log s).

(** A call to the pool or the client has been made and has ended in [ev]. *)
Definition called (ev : Event) (s : State) : State :=
  mkState (durable s) (txn s) (client s) (S (tick s)) (uuid_ctr s) (ev :: log s).

(** The tables a statement on the client sees. *)
Definition visible (s : State) : DB :=
  match txn s with
  | Some w => w
  | None => durable s
  end.

(** A statement on the client writes the working copy of its transaction,
    and the committed tables when no transaction is open. *)
Definition write (db : DB) (s : State) : State :=
  match txn s with
  | Some _ => mkState (durable s) (Some db) (client s) (tick s) (uuid_ctr s) (log s)
  | None => mkState db None (client s) (tick s) (uuid_ctr s) (log s)
  end.

Definition begin_txn (s : State) : State :=
  match txn s with
  | Some _ => s
  | None => mkState (durable s) (Some (durable s)) (client s) (tick s) (uuid_ctr s) (log s)
  end.

Definition commit_txn (s : State) : State :=
  match txn s with
  | Some w => mkState w None (client s) (tick s) (uuid_ctr s) (log s)
  | None => s
  end.

Definition rollback_txn (s : State) : State :=
  mkState (durable s) None (client s) (tick s) (uuid_ctr s) (log s).

(** ** The handler monad: state and exceptions *)

Definition M (A : Type) := State -> (Exn + A) * State.

Definition ret {A} (a : A) : M A := fun s => (inr a, s).

Definition bind {A B} (m : M A) (k : A -> M B) : M B :=
  fun s =>
    match m s with
    | (inr a, s') => k a s'
    | (inl e, s') => (inl e, s')
    end.

(** [try { body } catch (err) { handler err }] *)
Definition try_catch {A} (body : M A) (handler : Exn -> M A) : M A :=
  fun s =>
    match body s with
    | (inl e, s') => handler e s'
    | (inr a, s') => (inr a, s')
    end.

(** [{ m } finally { fin }]: [fin] runs whatever [m] did; what [m] returned
    or threw stands unless [fin] throws itself. *)
Definition finally {A} (m : M A) (fin : M unit) : M A :=
  fun s =>
    match m s with
    | (r, s') =>
        match fin s' with
        | (inr _, s'') => (r, s'')
        | (inl e, s'') => (inl e, s'')
        end
    end.

Declare Scope handler_scope.
Delimit Scope handler_scope with handler.
Notation "x <- m ;; k" := (bind m (fun x => k))
  (at level 61, m at next level, right associativity) : handler_scope.
Notation "m ;; k" := (bind m (fun _ => k))
  (at level 61, right associativity) : handler_scope.
Open Scope handler_scope.

(** ** JavaScript truthiness of a nullable identifier *)

(** [Some i] when the value is truthy: neither [null] nor the empty string. *)
Definition truthy (v : option uuid) : option uuid :=
  match v with
  | Some i => if i =? "" then None else Some i
  | None => None
  end.

(** [rows.length > 0 ? rows[0].inverse_type_id : null] *)
Definition row0_inverse_type_id (rows : list (option uuid)) : option uuid :=
  match rows with
  | v :: _ => v
  | [] => None
  end.

(** The inverse type the handlers act on for type [t]: the value of
    [inverse_type_id] in the first catalog row of [t], when truthy. *)
Definition inverseOf (db : DB) (t : uuid) : option uuid :=
  truthy (row0_inverse_type_id
            (map inverse_type_id (filter (fun x => rt_id x =? t) (relationship_types db)))).

Section Handlers.

Variable env : Env.

(** ** Pool, client and response primitives *)

Definition set_client (c : option Client) : M unit :=
  fun s => (inr tt, mkState (durable s) (txn s) c (tick s) (uuid_ctr s) (log s)).

Definition get_client : M (option Client) := fun s => (inr (client s), s).

(** [await pool.connect()] *)
Definition pool_connect : M Client :=
  fun s =>
    match fault env (tick s) with
    | Some e => (inl e, called AcquireError s)
    | None => (inr PoolClient, called Acquire s)
    end.

(** [await client.query(sql, params)] for a statement on tables. *)
Definition client_query {T} (q : Sql) (exec : Exec T) : M (list T) :=
  fun s =>
    match client s with
    | None => (inl TypeError, s)
    | Some _ =>
        match fault env (tick s) with
        | Some e => (inl e, called (QueryError q) s)
        | None =>
            match exec (visible s) with
            | inl e => (inl e, called (QueryError q) s)
            | inr (rows, db) => (inr rows, called (Query q) (write db s))
            end
        end
    end.

(** [await client.query("BEGIN" | "COMMIT" | "ROLLBACK")] *)
Definition client_control (q : Sql) (effect : State -> State) : M unit :=
  fun s =>
    match client s with
    | None => (inl TypeError, s)
    | Some _ =>
        match fault env (tick s) with
        | Some e => (inl e, called (QueryError q) s)
        | None => (inr tt, called (Query q) (effect s))
        end
    end.

Definition client_begin : M unit := client_control BEGIN begin_txn.
Definition client_commit : M unit := client_control COMMIT commit_txn.
Definition client_rollback : M unit := client_control ROLLBACK rollback_txn.

(** [client.release()] *)
Definition client_release : M unit :=
  fun s =>
    match client s with
    | None => (inl TypeError, s)
    | Some _ => (inr tt, emit Release s)
    end.

(** [await pool.query(sql, params)]: one statement on a connection of its
    own, committed at once. *)
Definition pool_query {T} (q : Sql) (exec : Exec T) : M (list T) :=
  fun s =>
    match fault env (tick s) with
    | Some e => (inl e, called (QueryError q) s)
    | None =>
        match exec (durable s) with
        | inl e => (inl e, called (QueryError q) s)
        | inr (rows, db) =>
            (inr rows,
             called (Query q) (mkState db (txn s) (client s) (tick s) (uuid_ctr s) (log s)))
        end
    end.

(** [uuidv4()] *)
Definition uuidv4 : M uuid :=
  fun s =>
    (inr (uuidv4_at env (uuid_ctr s)),
     mkState (durable s) (txn s) (client s) (tick s) (S (uuid_ctr s)) (log s)).

(** [res.status(code).json(body)] *)
Definition respond (code : nat) (b : Json) : M unit :=
  fun s => (inr tt, emit (Respond (mkResponse code b)) s).

(** [if (client) { client.release(); }] *)
Definition release_if_client : M unit :=
  c <- get_client ;;
  match c with
  | Some _ => client_release
  | None => ret tt
  end.

(** [if (client) { await client.query("ROLLBACK"); }] *)
Definition rollback_if_client : M unit :=
  c <- get_client ;;
  match c with
  | Some _ => client_rollback
  | None => ret tt
  end.

(** ** server.js: the relationship writer *)

(** The inverse part of a write of (m1, t, m2) whose type declares
    [inverse]; the same block in POST and in PUT.  Unless the type is its
    own inverse and both members are the same, look for the row
    (m2, inverse, m1) and insert it when the query returns no row. *)
Definition write_inverse (m1 t m2 inverse : uuid) : M unit :=
  if negb (inverse =? t) || negb (m1 =? m2)
  then
    existingInverse <- client_query (SELECT_relationship_id m2 inverse m1)
                                    (select_relationship_id m2 inverse m1) ;;
    match existingInverse with
    | [] =>
        inverseRelationshipId <- uuidv4 ;;
        client_query (INSERT_relationship inverseRelationshipId m2 inverse m1)
                     (insert_relationship inverseRelationshipId m2 inverse m1) ;;
        ret tt
    | _ :: _ => ret tt
    end
  else ret tt.

(** [app.post("/api/relationships")] of server.js *)
Definition post_relationships (member_id_1 relationship_type_id member_id_2 : uuid)
  : M unit :=
  set_client None ;;
  finally
    (try_catch
       (c <- pool_connect ;;
        set_client (Some c) ;;
        client_begin ;;
        primaryRelationshipId <- uuidv4 ;;
        client_query
          (INSERT_relationship primaryRelationshipId member_id_1
                               relationship_type_id member_id_2)
          (insert_relationship primaryRelationshipId member_id_1
                               relationship_type_id member_id_2) ;;
        typeResult <- client_query (SELECT_inverse_type_id relationship_type_id)
                                   (select_inverse_type_id relationship_type_id) ;;
        match truthy (row0_inverse_type_id typeResult) with
        | Some inverse_type_id =>
            write_inverse member_id_1 relationship_type_id member_id_2 inverse_type_id
        | None => ret tt
        end ;;
        client_commit ;;
        respond 201 (JMessage "Relationship(s) added successfully!"))
       (fun err =>
          client_rollback ;;
          respond 500 (JError "Internal server error")))
    release_if_client.

(** [app.put("/api/relationships/:id")] of server.js; the primed names are
    the fields of the request body, the plain ones the columns of [oldRel]. *)
Definition put_relationships (id member_id_1' relationship_type_id' member_id_2' : uuid)
  : M unit :=
  set_client None ;;
  finally
    (try_catch
       (c <- pool_connect ;;
        set_client (Some c) ;;
        client_begin ;;
        oldRelationshipQuery <- client_query (SELECT_relationship id)
                                             (select_relationship id) ;;
        match oldRelationshipQuery with
        | [] =>
            client_rollback ;;
            respond 404 (JError "Relationship not found")
        | oldRel :: _ =>
            oldInverseTypeResult <-
              client_query (SELECT_inverse_type_id (relationship_type_id oldRel))
                           (select_inverse_type_id (relationship_type_id oldRel)) ;;
            match truthy (row0_inverse_type_id oldInverseTypeResult) with
            | Some oldInverseTypeId =>
                let isOldSelfInverse := oldInverseTypeId =? relationship_type_id oldRel in
                if negb (isOldSelfInverse && (member_id_1 oldRel =? member_id_2 oldRel))
                then
                  client_query
                    (DELETE_relationship_matching (member_id_2 oldRel) oldInverseTypeId
                                                  (member_id_1 oldRel))
                    (delete_relationship_matching (member_id_2 oldRel) oldInverseTypeId
                                                  (member_id_1 oldRel)) ;;
                  ret tt
                else ret tt
            | None => ret tt
            end ;;
            result <- client_query
                        (UPDATE_relationship member_id_1' relationship_type_id' member_id_2' id)
                        (update_relationship member_id_1' relationship_type_id' member_id_2' id) ;;
            match result with
            | [] =>
                client_rollback ;;
                respond 404 (JError "Relationship not found")
            | row0 :: _ =>
                newTypeResult <-
                  client_query (SELECT_inverse_type_id relationship_type_id')
                               (select_inverse_type_id relationship_type_id') ;;
                match truthy (row0_inverse_type_id newTypeResult) with
                | Some newInverseTypeId =>
                    write_inverse member_id_1' relationship_type_id' member_id_2'
                                  newInverseTypeId
                | None => ret tt
                end ;;
                client_commit ;;
                respond 200 (JRelationship row0)
            end
        end)
       (fun err =>
          rollback_if_client ;;
          respond 500 (JError "Internal server error")))
    release_if_client.

(** [app.delete("/api/relationships/:id")] of server.js *)
Definition delete_relationships (id : uuid) : M unit :=
  set_client None ;;
  finally
    (try_catch
       (c <- pool_connect ;;
        set_client (Some c) ;;
        client_begin ;;
        relationshipResult <- client_query (SELECT_relationship id)
                                           (select_relationship id) ;;
        match relationshipResult with
        | [] =>
            client_rollback ;;
            respond 404 (JError "Relationship not found")
        | relationshipToDelete :: _ =>
            client_query (DELETE_relationship id) (delete_relationship id) ;;
            typeResult <-
              client_query
                (SELECT_inverse_type_id (relationship_type_id relationshipToDelete))
                (select_inverse_type_id (relationship_type_id relationshipToDelete)) ;;
            match truthy (row0_inverse_type_id typeResult) with
            | Some inverse_type_id =>
                let isSelfInverse :=
                  inverse_type_id =? relationship_type_id relationshipToDelete in
                if negb (isSelfInverse &&
                         (member_id_1 relationshipToDelete =? member_id_2 relationshipToDelete))
                then
                  client_query
                    (DELETE_relationship_matching (member_id_2 relationshipToDelete)
                                                  inverse_type_id
                                                  (member_id_1 relationshipToDelete))
                    (delete_relationship_matching (member_id_2 relationshipToDelete)
                                                  inverse_type_id
                                                  (member_id_1 relationshipToDelete)) ;;
                  ret tt
                else ret tt
            | None => ret tt
            end ;;
            client_commit ;;
            respond 200 (JMessage "Relationship(s) deleted successfully!")
        end)
       (fun err =>
          rollback_if_client ;;
          respond 500 (JError "Internal server error")))
    release_if_client.

(** ** server.js: deleting a member *)

Definition member_linked_message : string :=
  "Cannot delete member: This member is linked to one or more relationships. Please delete relationships first.".

(** [app.delete("/api/members/:id")] of server.js *)
Definition delete_members (id : uuid) : M unit :=
  try_catch
    (result <- pool_query (DELETE_member id) (delete_member id) ;;
     match result with
     | row0 :: _ => respond 200 (JMemberDeleted "Member deleted successfully" row0)
     | [] => respond 404 (JError "Member not found")
     end)
    (fun err =>
       match err_code err with
       | Some code =>
           if code =? "23503"
           then respond 400 (JError member_linked_message)
           else respond 500 (JError "Internal server error")
       | None => respond 500 (JError "Internal server error")
       end).

(** ** The older variant of the server: one INSERT, no inverse *)

(** [app.post("/api/relationships")] of the older variant.  The statement
    names no [id]; the identifier the column default produces is drawn
    from the same supply as [uuidv4()]. *)
Definition post_relationships_v0 (member_id_1 member_id_2 relationship_type_id : uuid)
  : M unit :=
  try_catch
    (if member_id_1 =? member_id_2
     then respond 400 (JError "Cannot create a relationship with the same member ID.")
     else
       i <- uuidv4 ;;
       result <- pool_query
                   (INSERT_relationship_returning member_id_1 member_id_2 relationship_type_id)
                   (insert_relationship_returning i member_id_1 member_id_2
                                                  relationship_type_id) ;;
       match result with
       | row0 :: _ => respond 201 (JRelationship row0)
       | [] => respond 201 JUndefined
       end)
    (fun err => respond 500 (JError "Internal Server Error")).

End Handlers.

(** ** A small family, used to run the handlers *)

Definition alice : uuid := "m-alice".
Definition bob : uuid := "m-bob".
Definition carol : uuid := "m-carol".

Definition Parent : uuid := "t-parent".
Definition Child : uuid := "t-child".
Definition Spouse : uuid := "t-spouse".
Definition Friend : uuid := "t-friend".
(** A type whose declared inverse is missing from the catalog. *)
Definition Ward : uuid := "t-ward".
Definition Guardian : uuid := "t-guardian".

Definition person (i : uuid) (first : string) : Member :=
  mkMember i first None "Kamara" None None true.

Definition family : DB :=
  mkDB [person alice "Alice"; person bob "Bob"; person carol "Carol"]
       [mkRelationshipType Parent "Parent" (Some Child);
        mkRelationshipType Child "Child" (Some Parent);
        mkRelationshipType Spouse "Spouse" (Some Spouse);
        mkRelationshipType Friend "Friend" None;
        mkRelationshipType Ward "Ward" (Some Guardian)]
       [].

Definition sample_uuid (n : nat) : uuid :=
  nth n ["r0"; "r1"; "r2"; "r3"; "r4"; "r5"; "r6"; "r7"] "r-late".

(** Nothing fails for an outside reason. *)
Definition calm : Env := mkEnv (fun _ => None) sample_uuid.

(** The [k]-th call to the pool or the client is rejected. *)
Definition failing_at (k : nat) : Env :=
  mkEnv (fun n => if n =? k then Some (PgError "08006") else None)%nat sample_uuid.

(** The chronological trace of a state. *)
Definition trace (s : State) : list Event := rev (log s).

(** ** Observing a run *)

(** What a handler returned or threw, and the state it left. *)
Definition outcome {A} (m : M A) (s : State) : Exn + A := fst (m s).
Definition after {A} (m : M A) (s : State) : State := snd (m s).

(** [Q] holds of the result of running [m] from [s]. *)
Definition wp {A} (m : M A) (Q : Exn + A -> State -> Prop) (s : State) : Prop :=
  Q (outcome m s) (after m s).

(** No call fails for a reason outside the tables. *)
Definition no_faults (env : Env) : Prop := forall n, fault env n = None.

(** The responses sent among some events. *)
Fixpoint responses (evs : list Event) : list Response :=
  match evs with
  | [] => []
  | Respond r :: evs' => r :: responses evs'
  | _ :: evs' => responses evs'
  end.

(** Statements that change the [relationships] or [members] tables. *)
Definition is_write (q : Sql) : bool :=
  match q with
  | INSERT_relationship _ _ _ _ => true
  | INSERT_relationship_returning _ _ _ => true
  | UPDATE_relationship _ _ _ _ => true
  | DELETE_relationship _ => true
  | DELETE_relationship_matching _ _ _ => true
  | DELETE_member _ => true
  | _ => false
  end.

(** The statements among some events that were sent, accepted or not,
    and would change a table. *)
Fixpoint writes (evs : list Event) : list Sql :=
  match evs with
  | [] => []
  | Query q :: evs' => if is_write q then q :: writes evs' else writes evs'
  | QueryError q :: evs' => if is_write q then q :: writes evs' else writes evs'
  | _ :: evs' => writes evs'
  end.

Fixpoint acquires (evs : list Event) : nat :=
  match evs with
  | [] => 0
  | Acquire :: evs' => S (acquires evs')
  | _ :: evs' => acquires evs'
  end.

Fixpoint releases (evs : list Event) : nat :=
  match evs with
  | [] => 0
  | Release :: evs' => S (releases evs')
  | _ :: evs' => releases evs'
  end.

(** Some call to the pool or the client was rejected. *)
Definition any_failure (evs : list Event) : bool :=
  existsb (fun ev => match ev with
                     | AcquireError => true
                     | QueryError _ => true
                     | _ => false
                     end) evs.

(** Every 500 among some events (newest first) comes right after a
    ROLLBACK that succeeded, or after the failure to get a client. *)
Fixpoint rollback_before_500 (evs : list Event) : bool :=
  match evs with
  | [] => true
  | Respond r :: rest =>
      (if (status r =? 500)%nat
       then match rest with
            | Query ROLLBACK :: _ => true
            | AcquireError :: _ => true
            | _ => false
            end
       else true)
      && rollback_before_500 rest
  | _ :: rest => rollback_before_500 rest
  end.

(** What holds of the client on every path of the three writers: it is
    released as often as it was acquired, at most once, and no 500 is sent
    before the transaction is rolled back. *)
Definition client_handled (evs : list Event) : Prop :=
  releases evs = acquires evs /\ acquires evs <= 1 /\ rollback_before_500 evs = true.

(** ** The writer's rules, in the words of the specification *)

(** The degenerate case: the type is its own inverse and subject and
    object are the same member. *)
Definition degenerate (inverse t m1 m2 : uuid) : bool :=
  (inverse =? t) && (m1 =? m2).

(** Create, steps 1 to 4: the primary row, then its inverse unless no
    inverse type is declared, the case is degenerate, or a row
    (object, inverse type, subject) is already there. *)
Definition inverse_added (db : DB) (i m1 t m2 : uuid) (rels : list Relationship)
  : list Relationship :=
  match inverseOf db t with
  | None => rels
  | Some inverse =>
      if degenerate inverse t m1 m2 then rels
      else if existsb (matches m2 inverse m1) rels then rels
      else rels ++ [mkRelationship i m2 inverse m1]
  end.

Definition created (db : DB) (i1 i2 m1 t m2 : uuid) : list Relationship :=
  inverse_added db i2 m1 t m2 (relationships db ++ [mkRelationship i1 m1 t m2]).

(** Update, step 3: the old inverse row is deleted when the old type
    declares an inverse, unless the old row is the degenerate case. *)
Definition old_inverse_removed (db : DB) (old : Relationship) (rels : list Relationship)
  : list Relationship :=
  match inverseOf db (relationship_type_id old) with
  | None => rels
  | Some inverse =>
      if degenerate inverse (relationship_type_id old) (member_id_1 old) (member_id_2 old)
      then rels
      else filter (fun r => negb (matches (member_id_2 old) inverse (member_id_1 old) r)) rels
  end.

(** Update, steps 3, 4 and 6 in order. *)
Definition updated (db : DB) (i id m1 t m2 : uuid) (old : Relationship)
  : list Relationship :=
  inverse_added db i m1 t m2
    (map (set_relationship m1 t m2 id)
         (old_inverse_removed db old (relationships db))).

(** Delete, steps 2 and 4. *)
Definition deleted (db : DB) (id : uuid) (old : Relationship) : list Relationship :=
  old_inverse_removed db old (filter (fun r => negb (has_id id r)) (relationships db)).

(** The chronological trace of a create in which nothing fails. *)
Definition create_trace (db : DB) (i1 i2 m1 t m2 : uuid) : list Event :=
  [Acquire; Query BEGIN; Query (INSERT_relationship i1 m1 t m2);
   Query (SELECT_inverse_type_id t)]
  ++ match inverseOf db t with
     | None => []
     | Some inverse =>
         if degenerate inverse t m1 m2 then []
         else
           Query (SELECT_relationship_id m2 inverse m1)
           :: (if existsb (matches m2 inverse m1)
                          (relationships db ++ [mkRelationship i1 m1 t m2])
               then []
               else [Query (INSERT_relationship i2 m2 inverse m1)])
     end
  ++ [Query COMMIT;
      Respond (mkResponse 201 (JMessage "Relationship(s) added successfully!"));
      Release].

(** The chronological trace of a create that goes from the catalog lookup
    straight to COMMIT: neither the existence check nor the insert of an
    inverse row is sent. *)
Definition trace_without_inverse_step (i1 m1 t m2 : uuid) : list Event :=
  [Acquire; Query BEGIN; Query (INSERT_relationship i1 m1 t m2);
   Query (SELECT_inverse_type_id t); Query COMMIT;
   Respond (mkResponse 201 (JMessage "Relationship(s) added successfully!"));
   Release].

(** The chronological trace of a create that finds the inverse row
    already there: the existence check is sent, the insert is not. *)
Definition trace_with_inverse_found (i1 m1 t m2 inverse : uuid) : list Event :=
  [Acquire; Query BEGIN; Query (INSERT_relationship i1 m1 t m2);
   Query (SELECT_inverse_type_id t); Query (SELECT_relationship_id m2 inverse m1);
   Query COMMIT;
   Respond (mkResponse 201 (JMessage "Relationship(s) added successfully!"));
   Release].

(** ** Two claims of the specification, as they are worded *)

(** P7: every POST whose two members are the same is answered 400, sends
    no statement that writes, and leaves the relationships as they were. *)
Definition rejects_self_relationship (post : Env -> uuid -> uuid -> M unit) : Prop :=
  forall env s m t,
    txn s = None ->
    exists evs,
      log (after (post env m t) s) = evs ++ log s /\
      map status (responses evs) = [400] /\
      writes evs = [] /\
      relationships (durable (after (post env m t) s)) = relationships (durable s).

(** P2: from an empty table, creating (A, T, B) and then (B, T, A) for a
    self-inverse T and distinct members leaves exactly two rows. *)
Definition mutual_create_leaves_two_rows : Prop :=
  forall env s A B T,
    no_faults env ->
    txn s = None ->
    relationships (durable s) = [] ->
    fk_ok (durable s) A T B = true ->
    inverseOf (durable s) T = Some T ->
    A <> B ->
    length (relationships
              (durable (after (post_relationships env B T A)
                              (after (post_relationships env A T B) s)))) = 2.

(** How a create ends once a call of it was rejected (events newest
    first): no client was obtained, so no transaction was begun; or a
    ROLLBACK is sent right after the rejected call and, once accepted,
    closes the transaction before the 500 is sent and the client released;
    or that ROLLBACK is rejected in its turn and the client is released
    without a response. *)
Definition failed_create_ends (evs : list Event) (s' : State) : Prop :=
  evs = [AcquireError] \/
  (exists q rest,
     evs = Release
           :: Respond (mkResponse 500 (JError "Internal server error"))
           :: Query ROLLBACK :: QueryError q :: rest /\
     txn s' = None) \/
  (exists q rest, evs = Release :: QueryError ROLLBACK :: QueryError q :: rest).

(** ** What a trace shows of the outcome *)

(** Some COMMIT among the events was accepted. *)
Definition commits (evs : list Event) : bool :=
  existsb (fun ev => match ev with
                     | Query COMMIT => true
                     | _ => false
                     end) evs.

(** Some response among the events has a status below 300. *)
Definition answers_success (evs : list Event) : bool :=
  existsb (fun ev => match ev with
                     | Respond r => (status r <? 300)%nat
                     | _ => false
                     end) evs.

(** ** Members: handlers of a single statement *)

(** INSERT INTO members (id, first_name, middle_name, last_name, dob, dod,
    is_alive) VALUES ($1, ..., $7) RETURNING *; the older variant names no
    [id] and gets it from the column default. *)
Definition insert_member (m : Member) : Exec Member :=
  fun db => inr ([m], with_members (members db ++ [m]) db).

Definition set_member (id : uuid) (first_name : string) (middle_name : option string)
  (last_name : string) (dob dod : option string) (is_alive : bool) (m : Member)
  : Member :=
  if m_id m =? id
  then mkMember (m_id m) first_name middle_name last_name dob dod is_alive
  else m.

(** UPDATE members SET first_name = $1, middle_name = $2, last_name = $3,
    dob = $4, dod = $5, is_alive = $6 WHERE id = $7 RETURNING * *)
Definition update_member (id : uuid) (first_name : string) (middle_name : option string)
  (last_name : string) (dob dod : option string) (is_alive : bool) : Exec Member :=
  fun db =>
    let ms := map (set_member id first_name middle_name last_name dob dod is_alive)
                  (members db) in
    inr (filter (fun m => m_id m =? id) ms, with_members ms db).

(** SELECT * FROM members WHERE id = $1 *)
Definition select_member (id : uuid) : Exec Member :=
  fun db => inr (filter (fun m => m_id m =? id) (members db), db).

Inductive MemberJson :=
| MRow (row : Member)                                  (* a members row *)
| MError (error : string)                              (* { error } *)
| MDeleted (message : string) (deletedMember : Member) (* { message, deletedMember } *)
| MUndefined.                                          (* [rows[0]] of no rows *)

Record MemberResponse := mkMemberResponse { m_status : nat; m_body : MemberJson }.

(** [await pool.query(sql, params)] as the only call of a handler; [fault]
    is what the environment does to that call. *)
Definition pool_query_once {T} (fault : option Exn) (exec : Exec T) (db : DB)
  : Exn + (list T * DB) :=
  match fault with
  | Some e => inl e
  | None => exec db
  end.

(** [result.rows[0]] as a body. *)
Definition row0_json (rows : list Member) : MemberJson :=
  match rows with
  | row0 :: _ => MRow row0
  | [] => MUndefined
  end.

(** [app.post("/api/members")] of server.js; [id] is what [uuidv4()]
    returned. *)
Definition post_members (fault : option Exn) (id : uuid) (first_name : string)
  (middle_name : option string) (last_name : string) (dob dod : option string)
  (is_alive : bool) (db : DB) : MemberResponse * DB :=
  match pool_query_once fault
          (insert_member (mkMember id first_name middle_name last_name dob dod is_alive))
          db with
  | inr (rows, db') => (mkMemberResponse 201 (row0_json rows), db')
  | inl err => (mkMemberResponse 500 (MError "Internal server error"), db)
  end.

(** [app.put("/api/members/:id")] of server.js *)
Definition put_members (fault : option Exn) (id : uuid) (first_name : string)
  (middle_name : option string) (last_name : string) (dob dod : option string)
  (is_alive : bool) (db : DB) : MemberResponse * DB :=
  match pool_query_once fault
          (update_member id first_name middle_name last_name dob dod is_alive) db with
  | inr (row0 :: _, db') => (mkMemberResponse 200 (MRow row0), db')
  | inr ([], db') => (mkMemberResponse 404 (MError "Member not found"), db')
  | inl err =>
      match err_code err with
      | Some code =>
          if code =? "23503"
          then (mkMemberResponse 400 (MError member_linked_message), db)
          else (mkMemberResponse 500 (MError "Internal server error"), db)
      | None => (mkMemberResponse 500 (MError "Internal server error"), db)
      end
  end.

(** [app.post("/api/members")] of the older variant; [id] is what the
    column default produced. *)
Definition post_members_v0 (fault : option Exn) (id : uuid) (first_name : string)
  (middle_name : option string) (last_name : string) (dob dod : option string)
  (is_alive : bool) (db : DB) : MemberResponse * DB :=
  match pool_query_once fault
          (insert_member (mkMember id first_name middle_name last_name dob dod is_alive))
          db with
  | inr (rows, db') => (mkMemberResponse 201 (row0_json rows), db')
  | inl err => (mkMemberResponse 500 (MError "Internal Server Error"), db)
  end.

(** [app.get("/api/members/:id")] of the older variant *)
Definition get_member_v0 (fault : option Exn) (id : uuid) (db : DB)
  : MemberResponse * DB :=
  match pool_query_once fault (select_member id) db with
  | inr ([], db') => (mkMemberResponse 404 (MError "Member not found"), db')
  | inr (row0 :: _, db') => (mkMemberResponse 200 (MRow row0), db')
  | inl err => (mkMemberResponse 500 (MError "Internal Server Error"), db)
  end.

(** [app.delete("/api/members/:id")] of the older variant *)
Definition delete_member_v0 (fault : option Exn) (id : uuid) (db : DB)
  : MemberResponse * DB :=
  match pool_query_once fault (delete_member id) db with
  | inr ([], db') => (mkMemberResponse 404 (MError "Member not found"), db')
  | inr (row0 :: _, db') =>
      (mkMemberResponse 200 (MDeleted "Member deleted successfully" row0), db')
  | inl err => (mkMemberResponse 500 (MError "Internal Server Error"), db)
  end.

(** [app.put("/api/members/:id")] of the older variant *)
Definition put_member_v0 (fault : option Exn) (id : uuid) (first_name : string)
  (middle_name : option string) (last_name : string) (dob dod : option string)
  (is_alive : bool) (db : DB) : MemberResponse * DB :=
  match pool_query_once fault
          (update_member id first_name middle_name last_name dob dod is_alive) db with
  | inr ([], db') => (mkMemberResponse 404 (MError "Member not found"), db')
  | inr (row0 :: _, db') => (mkMemberResponse 200 (MRow row0), db')
  | inl err => (mkMemberResponse 500 (MError "Internal Server Error"), db)
  end.

(** * Properties *)

(** ** Tables *)

Lemma fk_ok_relationships ms ts rs rs' m1 t m2 :
  fk_ok (mkDB ms ts rs) m1 t m2 = fk_ok (mkDB ms ts rs') m1 t m2.
Proof. reflexivity. Qed.

Lemma fk_ok_same_parents db rs m1 t m2 :
  fk_ok (mkDB (members db) (relationship_types db) rs) m1 t m2 = fk_ok db m1 t m2.
Proof. destruct db; reflexivity. Qed.

Lemma fk_ok_swap db m1 t m2 : fk_ok db m2 t m1 = fk_ok db m1 t m2.
Proof.
  unfold fk_ok.
  destruct (member_exists db m1), (member_exists db m2), (type_exists db t); reflexivity.
Qed.

Lemma fk_ok_type db m1 t m2 : fk_ok db m1 t m2 = true -> type_exists db t = true.
Proof.
  unfold fk_ok. intros H.
  apply andb_true_iff in H. destruct H as [H _].
  apply andb_true_iff in H. tauto.
Qed.

Lemma fk_ok_inverse db m1 t m2 inverse :
  fk_ok db m1 t m2 = true -> type_exists db inverse = true ->
  fk_ok db m2 inverse m1 = true.
Proof.
  unfold fk_ok. intros H Ht.
  apply andb_true_iff in H. destruct H as [H H2].
  apply andb_true_iff in H. destruct H as [H1 _].
  rewrite H1, H2, Ht. reflexivity.
Qed.

Lemma guard_is_not_degenerate inverse t m1 m2 :
  negb (inverse =? t) || negb (m1 =? m2) = negb (degenerate inverse t m1 m2).
Proof. unfold degenerate. destruct (inverse =? t), (m1 =? m2); reflexivity. Qed.

Lemma degenerate_true inverse t m1 m2 :
  degenerate inverse t m1 m2 = true <-> inverse = t /\ m1 = m2.
Proof.
  unfold degenerate. rewrite andb_true_iff, !String.eqb_eq. tauto.
Qed.

Lemma no_rows_iff {A B} (f : A -> B) (p : A -> bool) (l : list A) :
  map f (filter p l) = [] <-> existsb p l = false.
Proof.
  induction l as [|x l IH]; cbn; [tauto|].
  destruct (p x); cbn; [|exact IH].
  split; discriminate.
Qed.

Lemma some_row_matches {A B} (f : A -> B) (p : A -> bool) (l : list A) x xs :
  map f (filter p l) = x :: xs -> existsb p l = true.
Proof.
  intros H. destruct (existsb p l) eqn:E; [reflexivity|].
  apply no_rows_iff with (f := f) in E. congruence.
Qed.

Lemma filter_nil_iff {A} (p : A -> bool) (l : list A) :
  filter p l = [] <-> existsb p l = false.
Proof.
  induction l as [|x l IH]; cbn; [tauto|].
  destruct (p x); cbn; [|exact IH].
  split; discriminate.
Qed.

Lemma matches_true m1 t m2 r :
  matches m1 t m2 r = true <->
  member_id_1 r = m1 /\ relationship_type_id r = t /\ member_id_2 r = m2.
Proof.
  unfold matches. rewrite !andb_true_iff, !String.eqb_eq. tauto.
Qed.

Lemma matches_own_inverse old inverse :
  matches (member_id_2 old) inverse (member_id_1 old) old
  = degenerate inverse (relationship_type_id old) (member_id_1 old) (member_id_2 old).
Proof.
  unfold matches, degenerate.
  rewrite (String.eqb_sym (relationship_type_id old) inverse).
  rewrite (String.eqb_sym (member_id_2 old) (member_id_1 old)).
  destruct (member_id_1 old =? member_id_2 old), (inverse =? relationship_type_id old);
    reflexivity.
Qed.

Lemma has_id_set m1 t m2 i j r :
  has_id j (set_relationship m1 t m2 i r) = has_id j r.
Proof. unfold set_relationship. destruct (has_id i r); reflexivity. Qed.

(** The rows UPDATE returns are the rows it found, with their new values. *)
Lemma filter_has_id_set m1 t m2 i l :
  filter (has_id i) (map (set_relationship m1 t m2 i) l)
  = map (set_relationship m1 t m2 i) (filter (has_id i) l).
Proof.
  induction l as [|r l IH]; [reflexivity|].
  cbn. rewrite has_id_set. destruct (has_id i r); cbn; rewrite IH; reflexivity.
Qed.

Lemma filter_comm {A} (p q : A -> bool) (l : list A) :
  filter p (filter q l) = filter q (filter p l).
Proof.
  induction l as [|x l IH]; [reflexivity|].
  cbn. destruct (q x) eqn:Hq, (p x) eqn:Hp; cbn; rewrite ?Hq, ?Hp, IH; reflexivity.
Qed.

(** Selecting by identifier after a delete by pattern is the delete by
    pattern among the rows of that identifier. *)
Lemma filter_has_id_unmatched i m1 t m2 l :
  filter (has_id i) (filter (fun r => negb (matches m1 t m2 r)) l)
  = filter (fun r => negb (matches m1 t m2 r)) (filter (has_id i) l).
Proof. apply filter_comm. Qed.


Lemma set_relationship_hit m1 t m2 i r :
  has_id i r = true -> set_relationship m1 t m2 i r = mkRelationship i m1 t m2.
Proof.
  unfold set_relationship. intros H. rewrite H.
  apply String.eqb_eq in H. rewrite H. reflexivity.
Qed.

Lemma first_has_id i l old rest :
  filter (has_id i) l = old :: rest -> has_id i old = true.
Proof.
  intros H.
  assert (Hin : In old (filter (has_id i) l)) by (rewrite H; left; reflexivity).
  apply filter_In in Hin. tauto.
Qed.


(** ** Rules of the handler monad *)

Section Rules.

Variable env : Env.

Lemma wp_ret A (a : A) Q s : Q (inr a) s -> wp (ret a) Q s.
Proof. exact (fun H => H). Qed.

Lemma wp_bind A B (m : M A) (k : A -> M B) Q s :
  wp m (fun r s' => match r with
                    | inr a => wp (k a) Q s'
                    | inl e => Q (inl e) s'
                    end) s ->
  wp (bind m k) Q s.
Proof.
  unfold wp, outcome, after, bind. destruct (m s) as [[e|a] s']; cbn; auto.
Qed.

Lemma wp_try_catch A (body : M A) (handler : Exn -> M A) Q s :
  wp body (fun r s' => match r with
                       | inl e => wp (handler e) Q s'
                       | inr a => Q (inr a) s'
                       end) s ->
  wp (try_catch body handler) Q s.
Proof.
  unfold wp, outcome, after, try_catch. destruct (body s) as [[e|a] s']; cbn; auto.
Qed.

Lemma wp_finally A (m : M A) (fin : M unit) Q s :
  wp m (fun r s' =>
          wp fin (fun f s'' => match f with
                               | inr _ => Q r s''
                               | inl e => Q (inl e) s''
                               end) s') s ->
  wp (finally m fin) Q s.
Proof.
  unfold wp, outcome, after, finally. destruct (m s) as [r s']; cbn.
  destruct (fin s') as [[e|u] s'']; cbn; auto.
Qed.

Lemma wp_set_client c Q s :
  Q (inr tt) (mkState (durable s) (txn s) c (tick s) (uuid_ctr s) (log s)) ->
  wp (set_client c) Q s.
Proof. exact (fun H => H). Qed.

Lemma wp_get_client Q s : Q (inr (client s)) s -> wp get_client Q s.
Proof. exact (fun H => H). Qed.

Lemma wp_uuidv4 Q s :
  Q (inr (uuidv4_at env (uuid_ctr s)))
    (mkState (durable s) (txn s) (client s) (tick s) (S (uuid_ctr s)) (log s)) ->
  wp (uuidv4 env) Q s.
Proof. exact (fun H => H). Qed.

Lemma wp_respond code b Q s :
  Q (inr tt) (emit (Respond (mkResponse code b)) s) -> wp (respond code b) Q s.
Proof. exact (fun H => H). Qed.

Lemma wp_pool_connect Q s :
  (forall e, fault env (tick s) = Some e -> Q (inl e) (called AcquireError s)) ->
  (fault env (tick s) = None -> Q (inr PoolClient) (called Acquire s)) ->
  wp (pool_connect env) Q s.
Proof.
  unfold wp, outcome, after, pool_connect. destruct (fault env (tick s)); cbn; auto.
Qed.

Lemma wp_client_query T q (exec : Exec T) Q s :
  match client s with
  | None => Q (inl TypeError) s
  | Some _ =>
      (forall e, fault env (tick s) = Some e -> Q (inl e) (called (QueryError q) s)) /\
      (fault env (tick s) = None ->
       match exec (visible s) with
       | inl e => Q (inl e) (called (QueryError q) s)
       | inr (rows, db) => Q (inr rows) (called (Query q) (write db s))
       end)
  end ->
  wp (client_query env q exec) Q s.
Proof.
  unfold wp, outcome, after, client_query. destruct (client s); auto.
  intros [Hf Hok]. destruct (fault env (tick s)); cbn; auto.
  specialize (Hok eq_refl). destruct (exec (visible s)) as [e|[rows db]]; cbn; auto.
Qed.

Lemma wp_client_control q effect Q s :
  match client s with
  | None => Q (inl TypeError) s
  | Some _ =>
      (forall e, fault env (tick s) = Some e -> Q (inl e) (called (QueryError q) s)) /\
      (fault env (tick s) = None -> Q (inr tt) (called (Query q) (effect s)))
  end ->
  wp (client_control env q effect) Q s.
Proof.
  unfold wp, outcome, after, client_control. destruct (client s); auto.
  intros [Hf Hok]. destruct (fault env (tick s)); cbn; auto.
Qed.

Lemma wp_client_release Q s :
  match client s with
  | None => Q (inl TypeError) s
  | Some _ => Q (inr tt) (emit Release s)
  end ->
  wp client_release Q s.
Proof.
  unfold wp, outcome, after, client_release. destruct (client s); auto.
Qed.

Lemma wp_pool_query T q (exec : Exec T) Q s :
  (forall e, fault env (tick s) = Some e -> Q (inl e) (called (QueryError q) s)) ->
  (fault env (tick s) = None ->
   match exec (durable s) with
   | inl e => Q (inl e) (called (QueryError q) s)
   | inr (rows, db) =>
       Q (inr rows)
         (called (Query q) (mkState db (txn s) (client s) (tick s) (uuid_ctr s) (log s)))
   end) ->
  wp (pool_query env q exec) Q s.
Proof.
  unfold wp, outcome, after, pool_query. intros Hf Hok.
  destruct (fault env (tick s)); cbn; auto.
  specialize (Hok eq_refl). destruct (exec (durable s)) as [e|[rows db]]; cbn; auto.
Qed.

End Rules.

(** ** Stepping through a handler *)

(** Computes states and statements, leaves the tables' contents alone. *)
Ltac tidy :=
  unfold insert_relationship, insert_relationship_returning, update_relationship,
    delete_member, with_relationships, with_members in *;
  cbn beta iota zeta delta
    [durable txn client tick uuid_ctr log emit called visible write
     begin_txn commit_txn rollback_txn
     insert_relationship insert_relationship_returning select_inverse_type_id
     select_relationship_id select_relationship delete_relationship_matching
     delete_relationship update_relationship delete_member
     members relationship_types relationships negb
     r_id member_id_1 relationship_type_id member_id_2
     err_code foreign_key_violation] in *;
  rewrite ?fk_ok_same_parents, ?guard_is_not_degenerate in *;
  rewrite ?filter_has_id_set, ?filter_has_id_unmatched;
  repeat match goal with
    | H : fk_ok ?d ?a ?b ?c = _ |- context [fk_ok ?d ?a ?b ?c] => rewrite H
    | H : filter ?p ?l = _ |- context [filter ?p ?l] => rewrite H
    end;
  cbn [negb filter map]; rewrite ?andb_false_r, ?matches_own_inverse;
  repeat match goal with
    | H : degenerate ?i ?t ?a ?b = _ |- context [degenerate ?i ?t ?a ?b] => rewrite H
    end;
  cbn [negb filter map];
  repeat match goal with
    | |- context [truthy (row0_inverse_type_id
                            (map inverse_type_id
                                 (filter (fun x => rt_id x =? ?t) (relationship_types ?db))))] =>
        change (truthy (row0_inverse_type_id
                          (map inverse_type_id
                               (filter (fun x => rt_id x =? t) (relationship_types db)))))
          with (inverseOf db t)
    | |- context [(?i =? ?t) && (?a =? ?b)] =>
        change ((i =? t) && (a =? b)) with (degenerate i t a b)
    end.

(** One rule of the monad, chosen by the head of the program. *)
Ltac wp_step :=
  lazymatch goal with
  | |- wp (bind _ _) _ _ => apply wp_bind
  | |- wp (try_catch _ _) _ _ => apply wp_try_catch
  | |- wp (finally _ _) _ _ => apply wp_finally
  | |- wp (ret _) _ _ => apply wp_ret
  | |- wp (set_client _) _ _ => apply wp_set_client
  | |- wp get_client _ _ => apply wp_get_client
  | |- wp (uuidv4 _) _ _ => apply wp_uuidv4
  | |- wp (respond _ _) _ _ => apply wp_respond
  | |- wp (pool_connect _) _ _ =>
      apply wp_pool_connect; [intros ? ?|intros ?]
  | |- wp (client_query _ _ _) _ _ =>
      apply wp_client_query; tidy; try (split; [intros ? ?|intros ?])
  | |- wp (client_control _ _ _) _ _ =>
      apply wp_client_control; tidy; try (split; [intros ? ?|intros ?])
  | |- wp client_release _ _ => apply wp_client_release
  | |- wp (pool_query _ _ _) _ _ =>
      apply wp_pool_query; [intros ? ?|intros ?]
  | |- wp (client_begin _) _ _ => unfold client_begin
  | |- wp (client_commit _) _ _ => unfold client_commit
  | |- wp (client_rollback _) _ _ => unfold client_rollback
  | |- wp release_if_client _ _ => unfold release_if_client
  | |- wp (rollback_if_client _) _ _ => unfold rollback_if_client
  | |- wp (write_inverse _ _ _ _ _) _ _ => unfold write_inverse
  end; tidy.

(** States a goal about [outcome] and [after] as a [wp]. *)
Ltac as_wp :=
  lazymatch goal with
  | |- context [after ?m ?s] =>
      pattern (outcome m s), (after m s);
      lazymatch goal with
      | |- ?Q _ _ => change (wp m Q s)
      end
  end.

(** The same for a goal about the state alone. *)
Ltac after_as_wp :=
  lazymatch goal with
  | |- context [after ?m ?s] =>
      pattern (after m s);
      lazymatch goal with
      | |- ?Q _ => change (wp m (fun _ => Q) s)
      end
  end.

(** Closes a branch in which a call failed although none does. *)
Ltac no_fault Hnf :=
  match goal with
  | H : fault _ _ = Some _ |- _ => exfalso; rewrite Hnf in H; discriminate H
  end.

(** The scrutinee a stuck program or goal waits on. *)
Ltac scrutinee x :=
  lazymatch x with
  | match ?y with _ => _ end => scrutinee y
  | negb ?y => scrutinee y
  | _ => x
  end.

(** Decides a scrutinee from a hypothesis, or splits on it. *)
Ltac case_on x :=
  first
    [ match goal with
      | H : x = _ |- _ => rewrite H
      end
    | match x with
      | map ?f (filter ?p ?l) =>
          match goal with
          | H : existsb p l = false |- _ => rewrite (proj2 (no_rows_iff f p l) H)
          end
      end
    | destruct x eqn:? ].

Ltac data_step :=
  lazymatch goal with
  | |- wp (match ?x with _ => _ end) _ _ => let y := scrutinee x in case_on y
  | |- match ?x with _ => _ end => let y := scrutinee x in case_on y
  end; tidy.

(** Closes a branch whose case contradicts what is known of the tables. *)
Ltac absurd_case :=
  exfalso;
  first
    [ discriminate
    | congruence
    | match goal with
      | E : (?a =? ?a) = false |- _ => rewrite String.eqb_refl in E; discriminate E
      | E : map _ (filter _ _) = [] |- _ => apply no_rows_iff in E; congruence
      | E : filter _ _ = [] |- _ => apply filter_nil_iff in E; congruence
      end ].

(** Runs a handler when no call fails. *)
Ltac calm_run Hnf :=
  repeat (first [wp_step | data_step]; try no_fault Hnf; try solve [absurd_case]).

(** Runs a handler along every path, failing calls included. *)
Ltac any_run := repeat first [wp_step | data_step].

Lemma cons_events (x : Event) l evs lg : l = evs ++ lg -> x :: l = (x :: evs) ++ lg.
Proof. intros ->. reflexivity. Qed.

(** Names the events a run added in front of the log it started from. *)
Ltac new_events :=
  repeat apply cons_events;
  lazymatch goal with
  | |- ?lg = _ ++ ?lg => exact (eq_refl : lg = [] ++ lg)
  end.

(** Turns what a run learnt from its queries into facts about the tables. *)
Ltac settle_rows :=
  repeat match goal with
    | E : map _ (filter _ _) = [] |- _ => apply no_rows_iff in E
    | E : map _ (filter _ _) = _ :: _ |- _ => apply some_row_matches in E
    end.

(** Rewrites the goal with every case a run went through. *)
Ltac use_cases :=
  repeat match goal with
    | H : ?x = _ |- context [?x] => rewrite H
    end.

(** ** A create in which nothing fails *)

Lemma post_relationships_calm env s A T B :
  no_faults env ->
  txn s = None ->
  fk_ok (durable s) A T B = true ->
  (forall inverse, inverseOf (durable s) T = Some inverse ->
                   type_exists (durable s) inverse = true) ->
  let i1 := uuidv4_at env (uuid_ctr s) in
  let i2 := uuidv4_at env (S (uuid_ctr s)) in
  let rows := created (durable s) i1 i2 A T B in
  outcome (post_relationships env A T B) s = inr tt /\
  durable (after (post_relationships env A T B) s)
    = with_relationships rows (durable s) /\
  txn (after (post_relationships env A T B) s) = None /\
  uuid_ctr (after (post_relationships env A T B) s)
    = uuid_ctr s + (length rows - length (relationships (durable s))) /\
  log (after (post_relationships env A T B) s)
    = rev (create_trace (durable s) i1 i2 A T B) ++ log s.
Proof.
  intros Hnf Htx Hfk Hinv.
  destruct s as [db tx cl tk uc lg]. cbn in Htx, Hfk, Hinv. subst tx.
  cbn zeta. cbn [durable uuid_ctr log].
  unfold created, create_trace, inverse_added.
  destruct (inverseOf db T) as [inverse|] eqn:Hi.
  - pose proof (fk_ok_inverse _ _ _ _ _ Hfk (Hinv _ eq_refl)) as Hfk'.
    destruct (degenerate inverse T A B) eqn:Hd;
      [|destruct (existsb (matches B inverse A)
                          (relationships db ++ [mkRelationship (uuidv4_at env uc) A T B]))
          eqn:Hex];
      as_wp; unfold post_relationships; calm_run Hnf;
      rewrite ?length_app; cbn; repeat split; try reflexivity; lia.
  - as_wp; unfold post_relationships; calm_run Hnf.
    rewrite ?length_app; cbn; repeat split; try reflexivity; lia.
Qed.

Lemma matches_self i m1 t m2 : matches m1 t m2 (mkRelationship i m1 t m2) = true.
Proof. unfold matches; cbn. rewrite !String.eqb_refl. reflexivity. Qed.

Lemma degenerate_distinct inverse t m1 m2 : m1 <> m2 -> degenerate inverse t m1 m2 = false.
Proof.
  intros H. unfold degenerate. apply String.eqb_neq in H. rewrite H.
  apply andb_false_r.
Qed.

Lemma matches_swapped_distinct i m1 t m2 inverse :
  m1 <> m2 -> matches m2 inverse m1 (mkRelationship i m1 t m2) = false.
Proof.
  intros H. unfold matches; cbn. apply String.eqb_neq in H. rewrite H. reflexivity.
Qed.

(** ** Self-relationships on create (P7) *)

Lemma post_v0_rejects_self :
  rejects_self_relationship (fun env m t => post_relationships_v0 env m m t).
Proof.
  intros env s m t _.
  exists [Respond (mkResponse 400 (JError "Cannot create a relationship with the same member ID."))].
  unfold after, post_relationships_v0, try_catch. rewrite String.eqb_refl. cbn.
  repeat split; reflexivity.
Qed.

Lemma post_accepts_self env s m t :
  no_faults env ->
  txn s = None ->
  fk_ok (durable s) m t m = true ->
  (forall inverse, inverseOf (durable s) t = Some inverse ->
                   type_exists (durable s) inverse = true) ->
  exists evs,
    log (after (post_relationships env m t m) s) = evs ++ log s /\
    map status (responses evs) = [201] /\
    In (mkRelationship (uuidv4_at env (uuid_ctr s)) m t m)
       (relationships (durable (after (post_relationships env m t m) s))).
Proof.
  intros Hnf Htx Hfk Hinv.
  destruct (post_relationships_calm s m t m Hnf Htx Hfk Hinv)
    as (_ & Hdb & _ & _ & Hlog).
  eexists. split; [exact Hlog|]. split.
  - unfold create_trace.
    destruct (inverseOf (durable s) t) as [inverse|]; [|reflexivity].
    destruct (degenerate inverse t m m); [reflexivity|].
    destruct (existsb _ _); reflexivity.
  - rewrite Hdb. unfold with_relationships, created, inverse_added; cbn.
    destruct (inverseOf (durable s) t) as [inverse|];
      [destruct (degenerate inverse t m m); [|destruct (existsb _ _)]|];
      rewrite ?in_app_iff; cbn; auto.
Qed.

(** C1, as worded, fails on server.js: Alice as Spouse of herself is
    answered 201 and the row is committed. *)
Lemma post_does_not_reject_self :
  ~ rejects_self_relationship (fun env m t => post_relationships env m t m).
Proof.
  intros H.
  destruct (H calm (at_rest family) alice Spouse eq_refl) as (evs & Hlog & Hst & _).
  rewrite app_nil_r in Hlog. subst evs.
  vm_compute in Hst. discriminate Hst.
Qed.

(** C1 (amended): the older variant of the server rejects every POST whose
    two members are the same with 400 before any statement is sent, so no
    row is written; the POST handler of server.js has no such check: when
    the member and the types exist and no call fails, it answers 201 and
    commits the row (m, t, m). *)
Theorem self_relationship_rejected_by_older_variant_only :
  rejects_self_relationship (fun env m t => post_relationships_v0 env m m t) /\
  forall env s m t,
    no_faults env ->
    txn s = None ->
    fk_ok (durable s) m t m = true ->
    (forall inverse, inverseOf (durable s) t = Some inverse ->
                     type_exists (durable s) inverse = true) ->
    exists evs,
      log (after (post_relationships env m t m) s) = evs ++ log s /\
      map status (responses evs) = [201] /\
      In (mkRelationship (uuidv4_at env (uuid_ctr s)) m t m)
         (relationships (durable (after (post_relationships env m t m) s))).
Proof.
  split; [exact post_v0_rejects_self|].
  intros env s m t. apply post_accepts_self.
Qed.

Lemma calm_no_faults : no_faults calm.
Proof. intros n. reflexivity. Qed.

Lemma self_relationship_rejected_by_older_variant_only_witness :
  exists evs,
    log (after (post_relationships calm alice Spouse alice) (at_rest family))
      = evs ++ [] /\
    map status (responses evs) = [201] /\
    In (mkRelationship "r0" alice Spouse alice)
       (relationships
          (durable (after (post_relationships calm alice Spouse alice) (at_rest family)))).
Proof.
  apply (proj2 self_relationship_rejected_by_older_variant_only
               calm (at_rest family) alice Spouse).
  - intros n. reflexivity.
  - reflexivity.
  - reflexivity.
  - intros inverse H. vm_compute in H. injection H as <-. reflexivity.
Defined.

(** ** The degenerate case on create (P3) *)

(** C5: with no failing call, a create of (A, T, A) for a type T that is
    its own inverse commits exactly one new row; and for a type that
    declares an inverse, the create goes from the catalog lookup straight
    to COMMIT, sending neither the existence check nor the insert of an
    inverse, if and only if the inverse type equals the type and the
    subject equals the object. *)
Theorem inverse_skipped_iff_degenerate env s A T B inverse :
  no_faults env ->
  txn s = None ->
  fk_ok (durable s) A T B = true ->
  inverseOf (durable s) T = Some inverse ->
  type_exists (durable s) inverse = true ->
  let i1 := uuidv4_at env (uuid_ctr s) in
  let s' := after (post_relationships env A T B) s in
  (log s' = rev (trace_without_inverse_step i1 A T B) ++ log s
   <-> inverse = T /\ A = B) /\
  (inverse = T -> A = B ->
   relationships (durable s') = relationships (durable s) ++ [mkRelationship i1 A T A]).
Proof.
  intros Hnf Htx Hfk Hi Hty i1 s'.
  assert (Hinv : forall inv, inverseOf (durable s) T = Some inv ->
                             type_exists (durable s) inv = true)
    by (intros inv H; rewrite Hi in H; injection H as <-; exact Hty).
  destruct (post_relationships_calm s A T B Hnf Htx Hfk Hinv)
    as (_ & Hdb & _ & _ & Hlog).
  fold i1 in Hdb, Hlog. fold s' in Hdb, Hlog.
  unfold created, inverse_added in Hdb. unfold create_trace in Hlog.
  rewrite Hi in Hdb, Hlog.
  destruct (degenerate inverse T A B) eqn:Hd.
  - apply degenerate_true in Hd. destruct Hd as [-> ->].
    split.
    + split; [tauto|]. intros _. exact Hlog.
    + intros _ _. rewrite Hdb. reflexivity.
  - assert (Hnot : ~ (inverse = T /\ A = B))
      by (intros H; apply degenerate_true in H; congruence).
    split; [|tauto].
    split; [|tauto]. intros Hskip. exfalso.
    rewrite Hlog in Hskip. apply app_inv_tail in Hskip.
    destruct (existsb _ _); discriminate Hskip.
Qed.

Lemma inverse_skipped_iff_degenerate_witness :
  (log (after (post_relationships calm alice Spouse alice) (at_rest family))
   = rev (trace_without_inverse_step "r0" alice Spouse alice) ++ []
   <-> Spouse = Spouse /\ alice = alice) /\
  (Spouse = Spouse -> alice = alice ->
   relationships (durable (after (post_relationships calm alice Spouse alice)
                                 (at_rest family)))
   = [] ++ [mkRelationship "r0" alice Spouse alice]).
Proof.
  apply (@inverse_skipped_iff_degenerate calm (at_rest family) alice Spouse alice Spouse).
  - intros n. reflexivity.
  - reflexivity.
  - reflexivity.
  - reflexivity.
  - reflexivity.
Defined.

(** ** Creating a pair from both sides (P2) *)

(** C4, as worded, fails: from an empty table, Alice as Spouse of Bob and
    then Bob as Spouse of Alice leave three rows. *)
Lemma mutual_create_leaves_three_rows_in_family :
  ~ mutual_create_leaves_two_rows.
Proof.
  intros H.
  specialize (H calm (at_rest family) alice bob Spouse calm_no_faults
                eq_refl eq_refl eq_refl eq_refl).
  assert (Hne : alice <> bob) by discriminate.
  specialize (H Hne). vm_compute in H. discriminate H.
Qed.

(** C4 (amended): with no failing call, for a self-inverse type T and
    distinct members A and B of a table that holds no row (B, T, A),
    creating (A, T, B) and then (B, T, A) adds exactly three rows: the
    first call writes (A, T, B) and its inverse (B, T, A); the second call
    inserts its primary (B, T, A) without looking, then checks whether a
    row (A, T, B) exists and, as it does, sends no insert for an inverse.
    This holds for either member in the role of A. *)
Theorem mutual_create_adds_three_rows env s A B T :
  no_faults env ->
  txn s = None ->
  fk_ok (durable s) A T B = true ->
  inverseOf (durable s) T = Some T ->
  A <> B ->
  existsb (matches B T A) (relationships (durable s)) = false ->
  let u k := uuidv4_at env (k + uuid_ctr s) in
  let s1 := after (post_relationships env A T B) s in
  let s2 := after (post_relationships env B T A) s1 in
  relationships (durable s2)
    = relationships (durable s)
      ++ [mkRelationship (u 0) A T B; mkRelationship (u 1) B T A;
          mkRelationship (u 2) B T A] /\
  log s2 = rev (trace_with_inverse_found (u 2) B T A T) ++ log s1.
Proof.
  intros Hnf Htx Hfk Hi Hne Hnone u s1 s2.
  assert (Hinv : forall inv, inverseOf (durable s) T = Some inv ->
                             type_exists (durable s) inv = true)
    by (intros inv H; rewrite Hi in H; injection H as <-;
        exact (fk_ok_type _ _ _ _ Hfk)).
  destruct (post_relationships_calm s A T B Hnf Htx Hfk Hinv)
    as (_ & Hdb1 & Htx1 & Huc1 & _).
  fold s1 in Hdb1, Htx1, Huc1.
  assert (Hrows1 : created (durable s) (u 0) (u 1) A T B
                   = relationships (durable s)
                     ++ [mkRelationship (u 0) A T B; mkRelationship (u 1) B T A]).
  { unfold created, inverse_added. rewrite Hi, (degenerate_distinct T T Hne).
    rewrite existsb_app, Hnone. cbn [existsb orb].
    rewrite (matches_swapped_distinct (u 0) T T Hne). cbn.
    rewrite <- app_assoc. reflexivity. }
  change (uuidv4_at env (uuid_ctr s)) with (u 0) in Hdb1, Huc1.
  change (uuidv4_at env (S (uuid_ctr s))) with (u 1) in Hdb1, Huc1.
  rewrite Hrows1 in Hdb1, Huc1.
  rewrite length_app in Huc1. cbn [length] in Huc1.
  assert (Huc1' : uuid_ctr s1 = 2 + uuid_ctr s) by lia. clear Huc1.
  assert (Hfk1 : fk_ok (durable s1) B T A = true).
  { rewrite Hdb1. unfold with_relationships.
    rewrite fk_ok_same_parents, fk_ok_swap. exact Hfk. }
  assert (Hi1 : inverseOf (durable s1) T = Some T)
    by (rewrite Hdb1; exact Hi).
  assert (Hinv1 : forall inv, inverseOf (durable s1) T = Some inv ->
                              type_exists (durable s1) inv = true)
    by (intros inv H; rewrite Hi1 in H; injection H as <-;
        exact (fk_ok_type _ _ _ _ Hfk1)).
  destruct (post_relationships_calm s1 B T A Hnf Htx1 Hfk1 Hinv1)
    as (_ & Hdb2 & _ & _ & Hlog2).
  fold s2 in Hdb2, Hlog2. rewrite Huc1' in Hdb2, Hlog2.
  change (uuidv4_at env (2 + uuid_ctr s)) with (u 2) in Hdb2, Hlog2.
  assert (Hne' : B <> A) by congruence.
  assert (Hfound : existsb (matches A T B)
                           (relationships (durable s1) ++ [mkRelationship (u 2) B T A])
                   = true).
  { rewrite Hdb1. cbn [with_relationships relationships].
    rewrite !existsb_app. cbn [existsb]. rewrite matches_self.
    rewrite orb_true_r. reflexivity. }
  split.
  - rewrite Hdb2. unfold created, inverse_added.
    rewrite Hi1, (degenerate_distinct T T Hne'), Hfound.
    rewrite Hdb1. cbn [with_relationships relationships].
    rewrite <- app_assoc. reflexivity.
  - rewrite Hlog2. unfold create_trace.
    rewrite Hi1, (degenerate_distinct T T Hne'), Hfound. reflexivity.
Qed.

Lemma mutual_create_adds_three_rows_witness :
  relationships
    (durable (after (post_relationships calm bob Spouse alice)
                    (after (post_relationships calm alice Spouse bob) (at_rest family))))
    = [] ++ [mkRelationship "r0" alice Spouse bob; mkRelationship "r1" bob Spouse alice;
             mkRelationship "r2" bob Spouse alice] /\
  log (after (post_relationships calm bob Spouse alice)
             (after (post_relationships calm alice Spouse bob) (at_rest family)))
    = rev (trace_with_inverse_found "r2" bob Spouse alice Spouse)
      ++ log (after (post_relationships calm alice Spouse bob) (at_rest family)).
Proof.
  apply (@mutual_create_adds_three_rows calm (at_rest family) alice bob Spouse).
  - intros n. reflexivity.
  - reflexivity.
  - reflexivity.
  - reflexivity.
  - discriminate.
  - reflexivity.
Defined.

(** ** Atomicity of create (P1) *)

Lemma create_all_or_nothing env s A T B inverse :
  txn s = None ->
  inverseOf (durable s) T = Some inverse ->
  degenerate inverse T A B = false ->
  let s' := after (post_relationships env A T B) s in
  let primary := mkRelationship (uuidv4_at env (uuid_ctr s)) A T B in
  durable s' = durable s \/
  (exists rows,
     durable s' = with_relationships (relationships (durable s) ++ primary :: rows)
                                     (durable s)) /\
  existsb (matches B inverse A) (relationships (durable s')) = true.
Proof.
  intros Htx Hi Hd.
  destruct s as [db tx cl tk uc lg]. cbn in Htx, Hi. subst tx.
  cbn zeta. cbn [durable uuid_ctr].
  after_as_wp.
  unfold post_relationships. any_run.
  all: try (left; reflexivity).
  - right. split.
    + exists [mkRelationship (uuidv4_at env (S uc)) B inverse A].
      rewrite <- app_assoc. reflexivity.
    + rewrite existsb_app. cbn [existsb]. rewrite matches_self.
      rewrite orb_true_r. reflexivity.
  - right. split.
    + exists []. reflexivity.
    + eapply some_row_matches; eassumption.
Qed.

Ltac failed_create_leaf :=
  unfold failed_create_ends;
  first
    [ left; reflexivity
    | right; left; do 2 eexists; split; reflexivity
    | right; right; do 2 eexists; reflexivity ].

(** A rejected call, at whatever step, is followed at once by a ROLLBACK
    of the transaction, and leaves the committed tables as they were. *)
Lemma create_failure_rolls_back env s A T B :
  txn s = None ->
  exists evs,
    log (after (post_relationships env A T B) s) = evs ++ log s /\
    (any_failure evs = true ->
     durable (after (post_relationships env A T B) s) = durable s /\
     failed_create_ends evs (after (post_relationships env A T B) s)).
Proof.
  intros Htx. destruct s as [db tx cl tk uc lg]. cbn in Htx. subst tx.
  cbn [durable log]. after_as_wp. unfold post_relationships. any_run.
  all: eexists; split; [new_events|]; cbn [any_failure existsb orb]; intros Hfail;
    first [discriminate Hfail | split; [reflexivity|failed_create_leaf]].
Qed.

Lemma created_grows db i1 i2 m1 t m2 :
  length (relationships db) < length (created db i1 i2 m1 t m2).
Proof.
  unfold created, inverse_added.
  destruct (inverseOf db t) as [inverse|];
    [destruct (degenerate inverse t m1 m2); [|destruct (existsb _ _)]|];
    rewrite !length_app; cbn; lia.
Qed.

(** C2: for a create whose type declares an inverse and which is not the
    degenerate case, whatever call fails, the committed tables afterwards
    are either exactly those before the call, or hold the primary row
    together with a row (object, inverse type, subject).  Whenever some
    call of the handler was rejected they are those before the call, and
    the handler has rolled the transaction back: right after the rejected
    call it sends ROLLBACK, which closes the transaction before the 500 is
    sent (unless the ROLLBACK itself is rejected, or no client was obtained
    and no transaction begun).  When no call fails and the members and
    types exist, the tables do change. *)
Theorem create_is_atomic env s A T B inverse :
  txn s = None ->
  inverseOf (durable s) T = Some inverse ->
  degenerate inverse T A B = false ->
  let s' := after (post_relationships env A T B) s in
  let primary := mkRelationship (uuidv4_at env (uuid_ctr s)) A T B in
  (durable s' = durable s \/
   (exists rows,
      durable s' = with_relationships (relationships (durable s) ++ primary :: rows)
                                      (durable s)) /\
   existsb (matches B inverse A) (relationships (durable s')) = true) /\
  (exists evs,
     log s' = evs ++ log s /\
     (any_failure evs = true -> durable s' = durable s /\ failed_create_ends evs s')) /\
  (no_faults env ->
   fk_ok (durable s) A T B = true ->
   type_exists (durable s) inverse = true ->
   durable s' <> durable s).
Proof.
  intros Htx Hi Hd s' primary. split; [|split].
  - exact (create_all_or_nothing env s A T B Htx Hi Hd).
  - exact (create_failure_rolls_back env s A T B Htx).
  - intros Hnf Hfk Hty Heq.
    assert (Hinv : forall inv, inverseOf (durable s) T = Some inv ->
                               type_exists (durable s) inv = true)
      by (intros inv H; rewrite Hi in H; injection H as <-; exact Hty).
    destruct (post_relationships_calm s A T B Hnf Htx Hfk Hinv) as (_ & Hdb & _).
    fold s' in Hdb. rewrite Heq in Hdb.
    apply (f_equal (fun d => length (relationships d))) in Hdb.
    cbn [with_relationships relationships] in Hdb.
    pose proof (created_grows (durable s) (uuidv4_at env (uuid_ctr s))
                              (uuidv4_at env (S (uuid_ctr s))) A T B).
    lia.
Qed.

(** Two runs: the lookup after the primary insert is rejected and the
    insert is rolled back; nothing is rejected and both rows are
    committed. *)
Lemma create_is_atomic_witness :
  (let s' := after (post_relationships (failing_at 3) alice Parent bob) (at_rest family) in
   durable s' = family /\ failed_create_ends (log s') s' /\ txn s' = None) /\
  (let s' := after (post_relationships calm alice Parent bob) (at_rest family) in
   (durable s' = family \/
    (exists rows,
       durable s'
       = with_relationships ([] ++ mkRelationship "r0" alice Parent bob :: rows) family) /\
    existsb (matches bob Child alice) (relationships (durable s')) = true) /\
   durable s' <> family).
Proof.
  split.
  - destruct (@create_is_atomic (failing_at 3) (at_rest family) alice Parent bob Child
                eq_refl eq_refl eq_refl) as (_ & (evs & Hlog & Hfail) & _).
    rewrite app_nil_r in Hlog. subst evs.
    destruct (Hfail eq_refl) as [Hdb Hends].
    split; [exact Hdb|]. split; [exact Hends|reflexivity].
  - destruct (@create_is_atomic calm (at_rest family) alice Parent bob Child
                eq_refl eq_refl eq_refl) as (H1 & _ & H2).
    split; [exact H1|].
    apply H2; [intros n; reflexivity|reflexivity|reflexivity].
Defined.

(** The catalog names an inverse for Ward that is not a type: the inverse
    insert is rejected after the primary insert, and nothing is kept. *)
Example create_rolls_back_primary :
  durable (after (post_relationships calm alice Ward bob) (at_rest family)) = family /\
  trace (after (post_relationships calm alice Ward bob) (at_rest family))
  = [Acquire; Query BEGIN; Query (INSERT_relationship "r0" alice Ward bob);
     Query (SELECT_inverse_type_id Ward);
     Query (SELECT_relationship_id bob Guardian alice);
     QueryError (INSERT_relationship "r1" bob Guardian alice);
     Query ROLLBACK;
     Respond (mkResponse 500 (JError "Internal server error"));
     Release].
Proof. split; reflexivity. Qed.

(** ** Delete (P5) *)

Lemma delete_relationships_calm env s id old rest :
  no_faults env ->
  txn s = None ->
  filter (has_id id) (relationships (durable s)) = old :: rest ->
  outcome (delete_relationships env id) s = inr tt /\
  durable (after (delete_relationships env id) s)
    = with_relationships (deleted (durable s) id old) (durable s) /\
  txn (after (delete_relationships env id) s) = None.
Proof.
  intros Hnf Htx Hrow.
  destruct s as [db tx cl tk uc lg]. cbn in Htx, Hrow. subst tx.
  cbn [durable]. unfold deleted, old_inverse_removed.
  destruct (inverseOf db (relationship_type_id old)) as [inverse|] eqn:Hi;
    [destruct (degenerate inverse (relationship_type_id old)
                          (member_id_1 old) (member_id_2 old)) eqn:Hd|];
    as_wp; unfold delete_relationships; calm_run Hnf;
    repeat split; reflexivity.
Qed.





(** The scenario of the specification: POST {A, Parent, B} writes two
    rows, DELETE of the first removes both. *)
Example delete_scenario :
  let s1 := after (post_relationships calm alice Parent bob) (at_rest family) in
  relationships (durable s1)
    = [mkRelationship "r0" alice Parent bob; mkRelationship "r1" bob Child alice] /\
  relationships (durable (after (delete_relationships calm "r0") s1)) = [].
Proof. split; reflexivity. Qed.

(** ** Unknown identifiers (NotFound) *)




(** Deleting the same relationship twice: the second delete finds nothing. *)
Example delete_twice :
  let s1 := after (post_relationships calm alice Parent bob) (at_rest family) in
  let s2 := after (delete_relationships calm "r0") s1 in
  let s3 := after (delete_relationships calm "r0") s2 in
  durable s3 = durable s2 /\
  responses (trace s3)
  = [mkResponse 201 (JMessage "Relationship(s) added successfully!");
     mkResponse 200 (JMessage "Relationship(s) deleted successfully!");
     mkResponse 404 (JError "Relationship not found")].
Proof. split; reflexivity. Qed.

(** ** Update (P4) *)

(** C3: with no failing call, an update of the existing relationship
    [old] = (A, TypeX, B) to (m1, t, m2) commits the table obtained in
    three steps, in this order: the rows matching (B, InvX, A) are deleted
    when TypeX declares the inverse InvX, unless InvX is TypeX and A is B;
    the rows of the identifier get the new subject, type and object; and
    when t declares an inverse, the row (m2, inverse, m1) is added under
    the rules of create (not in the degenerate case, not when such a row
    is already there).  The answer is 200 with the updated row. *)
Theorem update_reconciles_inverses env s id old rest m1 t m2 :
  no_faults env ->
  txn s = None ->
  filter (has_id id) (relationships (durable s)) = old :: rest ->
  fk_ok (durable s) m1 t m2 = true ->
  (forall inverse, inverseOf (durable s) t = Some inverse ->
                   type_exists (durable s) inverse = true) ->
  let s' := after (put_relationships env id m1 t m2) s in
  outcome (put_relationships env id m1 t m2) s = inr tt /\
  durable s'
    = with_relationships
        (updated (durable s) (uuidv4_at env (uuid_ctr s)) id m1 t m2 old) (durable s) /\
  exists evs,
    log s' = Release
             :: Respond (mkResponse 200 (JRelationship (mkRelationship id m1 t m2)))
             :: Query COMMIT :: evs ++ log s.
Proof.
  intros Hnf Htx Hrow Hfk Hinv.
  pose proof (set_relationship_hit m1 t m2 _ _ (first_has_id _ _ Hrow)) as Hset.
  destruct s as [db tx cl tk uc lg]. cbn in Htx, Hrow, Hfk, Hinv. subst tx.
  cbn zeta. cbn [durable uuid_ctr log].
  destruct (inverseOf db t) as [inverse|] eqn:Hi;
    [pose proof (fk_ok_inverse _ _ _ _ _ Hfk (Hinv _ eq_refl)) as Hfk'|];
    as_wp; unfold put_relationships; calm_run Hnf;
    (split; [reflexivity|]); rewrite Hset; settle_rows;
    unfold updated, old_inverse_removed, inverse_added; use_cases;
    (split; [reflexivity|]);
    eexists; do 3 f_equal; new_events.
Qed.

Lemma update_reconciles_inverses_witness :
  let s := after (post_relationships calm alice Parent bob) (at_rest family) in
  let old := mkRelationship "r0" alice Parent bob in
  outcome (put_relationships calm "r0" alice Spouse carol) s = inr tt /\
  durable (after (put_relationships calm "r0" alice Spouse carol) s)
    = with_relationships (updated (durable s) "r2" "r0" alice Spouse carol old)
                         (durable s) /\
  exists evs,
    log (after (put_relationships calm "r0" alice Spouse carol) s)
    = Release
      :: Respond (mkResponse 200 (JRelationship (mkRelationship "r0" alice Spouse carol)))
      :: Query COMMIT :: evs ++ log s.
Proof.
  intros s old.
  apply (@update_reconciles_inverses calm s "r0" old [] alice Spouse carol).
  - intros n. reflexivity.
  - reflexivity.
  - reflexivity.
  - reflexivity.
  - intros inverse H. vm_compute in H. injection H as <-. reflexivity.
Defined.

(** The scenario of P4: (Alice, Parent, Bob) with its inverse
    (Bob, Child, Alice) becomes (Alice, Spouse, Carol); the old inverse
    goes, (Carol, Spouse, Alice) comes. *)
Example update_scenario :
  let s := after (post_relationships calm alice Parent bob) (at_rest family) in
  relationships (durable (after (put_relationships calm "r0" alice Spouse carol) s))
  = [mkRelationship "r0" alice Spouse carol; mkRelationship "r2" carol Spouse alice].
Proof. reflexivity. Qed.

(** ** The NotFound check after UPDATE *)

Lemma target_survives db id old rest :
  filter (has_id id) (relationships db) = old :: rest ->
  In old (old_inverse_removed db old (relationships db)).
Proof.
  intros Hrow.
  assert (Hin : In old (relationships db)).
  { assert (H : In old (filter (has_id id) (relationships db)))
      by (rewrite Hrow; left; reflexivity).
    apply filter_In in H. tauto. }
  unfold old_inverse_removed.
  destruct (inverseOf db (relationship_type_id old)) as [inverse|]; [|exact Hin].
  destruct (degenerate _ _ _ _) eqn:Hd; [exact Hin|].
  apply filter_In. split; [exact Hin|].
  rewrite matches_own_inverse, Hd. reflexivity.
Qed.

Ltac no_such_response :=
  let b := fresh "b" in
  let Hin := fresh "Hin" in
  intros b Hin; cbn in Hin;
  repeat (destruct Hin as [Hin|Hin]; [discriminate Hin|]);
  exact Hin.

(** C10: when the row of the identifier is there at the start of an
    update, it is still there after the delete of the old inverse, and
    the request is never answered 404, whatever call fails: the NotFound
    branch after the UPDATE statement is not taken. *)
Theorem update_never_misses_target env s id old rest m1 t m2 :
  txn s = None ->
  filter (has_id id) (relationships (durable s)) = old :: rest ->
  In old (old_inverse_removed (durable s) old (relationships (durable s))) /\
  exists evs,
    log (after (put_relationships env id m1 t m2) s) = evs ++ log s /\
    forall b, ~ In (Respond (mkResponse 404 b)) evs.
Proof.
  intros Htx Hrow. split; [exact (target_survives _ _ Hrow)|].
  destruct s as [db tx cl tk uc lg]. cbn in Htx, Hrow. subst tx.
  cbn [log]. after_as_wp. unfold put_relationships. any_run.
  all: eexists; split; [new_events|no_such_response].
Qed.

Lemma update_never_misses_target_witness :
  let s := after (post_relationships calm alice Spouse bob) (at_rest family) in
  let old := mkRelationship "r0" alice Spouse bob in
  In old (old_inverse_removed (durable s) old (relationships (durable s))) /\
  exists evs,
    log (after (put_relationships (failing_at 13) "r0" alice Parent carol) s)
    = evs ++ log s /\
    forall b, ~ In (Respond (mkResponse 404 b)) evs.
Proof.
  intros s old.
  apply (@update_never_misses_target (failing_at 13) s "r0" old [] alice Parent carol).
  - reflexivity.
  - reflexivity.
Defined.

(** ** The pooled client on every path *)

Ltac client_leaf :=
  eexists; split; [new_events|];
  unfold client_handled; cbn; repeat split; lia.

Lemma post_handles_client env s A T B :
  exists evs,
    log (after (post_relationships env A T B) s) = evs ++ log s /\ client_handled evs.
Proof.
  destruct s as [db [w|] cl tk uc lg]; cbn [log]; after_as_wp;
    unfold post_relationships; any_run; client_leaf.
Qed.

Lemma put_handles_client env s id m1 t m2 :
  exists evs,
    log (after (put_relationships env id m1 t m2) s) = evs ++ log s /\
    client_handled evs.
Proof.
  destruct s as [db [w|] cl tk uc lg]; cbn [log]; after_as_wp;
    unfold put_relationships; any_run; client_leaf.
Qed.

Lemma delete_handles_client env s id :
  exists evs,
    log (after (delete_relationships env id) s) = evs ++ log s /\ client_handled evs.
Proof.
  destruct s as [db [w|] cl tk uc lg]; cbn [log]; after_as_wp;
    unfold delete_relationships; any_run; client_leaf.
Qed.

(** When [pool.connect()] is rejected, update and delete answer 500. *)
Lemma put_answers_when_connect_fails env s id m1 t m2 e :
  fault env (tick s) = Some e ->
  outcome (put_relationships env id m1 t m2) s = inr tt /\
  log (after (put_relationships env id m1 t m2) s)
  = Respond (mkResponse 500 (JError "Internal server error")) :: AcquireError :: log s.
Proof.
  intros Hf. unfold outcome, after, put_relationships, bind, finally, try_catch,
    pool_connect, set_client. cbn. rewrite Hf. cbn. split; reflexivity.
Qed.

Lemma delete_answers_when_connect_fails env s id e :
  fault env (tick s) = Some e ->
  outcome (delete_relationships env id) s = inr tt /\
  log (after (delete_relationships env id) s)
  = Respond (mkResponse 500 (JError "Internal server error")) :: AcquireError :: log s.
Proof.
  intros Hf. unfold outcome, after, delete_relationships, bind, finally, try_catch,
    pool_connect, set_client. cbn. rewrite Hf. cbn. split; reflexivity.
Qed.

(** C8 fails on create: when [pool.connect()] is rejected, the catch
    block calls [client.query] on the undefined client; the handler ends
    in a TypeError, having sent no ROLLBACK and no response. *)
Theorem create_crashes_when_connect_fails env s A T B e :
  fault env (tick s) = Some e ->
  outcome (post_relationships env A T B) s = inl TypeError /\
  log (after (post_relationships env A T B) s) = AcquireError :: log s.
Proof.
  intros Hf. unfold outcome, after, post_relationships, bind, finally, try_catch,
    pool_connect, set_client. cbn. rewrite Hf. cbn. split; reflexivity.
Qed.

Lemma create_crashes_when_connect_fails_witness :
  outcome (post_relationships (failing_at 0) alice Parent bob) (at_rest family)
  = inl TypeError /\
  log (after (post_relationships (failing_at 0) alice Parent bob) (at_rest family))
  = AcquireError :: [].
Proof.
  apply (@create_crashes_when_connect_fails
           (failing_at 0) (at_rest family) alice Parent bob (PgError "08006")).
  reflexivity.
Defined.

(** ** Deleting a member that is referenced (P6) *)

(** C9: a DELETE of a member that exists and is referenced by a
    relationship row changes no table, whatever happens to the call; when
    the statement reaches the tables it is rejected as a foreign-key
    violation, which the handler answers with 400 and its message. *)
Theorem referenced_member_is_protected env s id :
  member_exists (durable s) id = true ->
  member_referenced (durable s) id = true ->
  durable (after (delete_members env id) s) = durable s /\
  (fault env (tick s) = None ->
   outcome (delete_members env id) s = inr tt /\
   log (after (delete_members env id) s)
   = Respond (mkResponse 400 (JError member_linked_message))
     :: QueryError (DELETE_member id) :: log s).
Proof.
  intros Hex Href. unfold member_exists in Hex.
  destruct s as [db tx cl tk uc lg]. cbn in Hex, Href. cbn [durable tick log].
  split.
  - after_as_wp. unfold delete_members. any_run; reflexivity.
  - intros Hf. as_wp. unfold delete_members.
    repeat (first [wp_step | data_step]; try congruence; try solve [absurd_case]).
    split; reflexivity.
Qed.

Lemma referenced_member_is_protected_witness :
  let s := after (post_relationships calm alice Parent bob) (at_rest family) in
  durable (after (delete_members calm alice) s) = durable s /\
  (fault calm (tick s) = None ->
   outcome (delete_members calm alice) s = inr tt /\
   log (after (delete_members calm alice) s)
   = Respond (mkResponse 400 (JError member_linked_message))
     :: QueryError (DELETE_member alice) :: log s).
Proof.
  intros s.
  apply (@referenced_member_is_protected calm s alice).
  - reflexivity.
  - reflexivity.
Defined.

(** A member nobody is related to can be deleted. *)
Example unreferenced_member_is_deleted :
  map m_id (members (durable (after (delete_members calm carol) (at_rest family))))
  = [alice; bob] /\
  map status (responses (trace (after (delete_members calm carol) (at_rest family))))
  = [200].
Proof. split; reflexivity. Qed.

(** * Further properties of the writers *)

(** ** Failures of update and delete *)

(** X1: whatever call of an update is rejected, at whatever step, the
    committed tables are those before the request. *)
Theorem update_failure_keeps_tables env s id m1 t m2 :
  txn s = None ->
  exists evs,
    log (after (put_relationships env id m1 t m2) s) = evs ++ log s /\
    (any_failure evs = true ->
     durable (after (put_relationships env id m1 t m2) s) = durable s).
Proof.
  intros Htx. destruct s as [db tx cl tk uc lg]. cbn in Htx. subst tx.
  cbn [durable log]. after_as_wp. unfold put_relationships. any_run.
  all: eexists; split; [new_events|]; cbn; intros Hfail;
    first [reflexivity|discriminate Hfail].
Qed.

(** The UPDATE statement is rejected after the old inverse was deleted. *)
Lemma update_failure_keeps_tables_witness :
  let s := after (post_relationships calm alice Parent bob) (at_rest family) in
  exists evs,
    log (after (put_relationships (failing_at 12) "r0" alice Spouse carol) s)
    = evs ++ log s /\
    (any_failure evs = true ->
     durable (after (put_relationships (failing_at 12) "r0" alice Spouse carol) s)
     = durable s).
Proof.
  intros s.
  apply (@update_failure_keeps_tables (failing_at 12) s "r0" alice Spouse carol).
  reflexivity.
Defined.

Example update_rolls_back_old_inverse_delete :
  let s := after (post_relationships calm alice Parent bob) (at_rest family) in
  let s' := after (put_relationships (failing_at 12) "r0" alice Spouse carol) s in
  durable s' = durable s /\
  firstn 9 (log s')
  = [Release; Respond (mkResponse 500 (JError "Internal server error"));
     Query ROLLBACK; QueryError (UPDATE_relationship alice Spouse carol "r0");
     Query (DELETE_relationship_matching bob Child alice);
     Query (SELECT_inverse_type_id Parent); Query (SELECT_relationship "r0");
     Query BEGIN; Acquire].
Proof. split; reflexivity. Qed.

(** X2: whatever call of a delete is rejected, at whatever step, the
    committed tables are those before the request. *)
Theorem delete_failure_keeps_tables env s id :
  txn s = None ->
  exists evs,
    log (after (delete_relationships env id) s) = evs ++ log s /\
    (any_failure evs = true ->
     durable (after (delete_relationships env id) s) = durable s).
Proof.
  intros Htx. destruct s as [db tx cl tk uc lg]. cbn in Htx. subst tx.
  cbn [durable log]. after_as_wp. unfold delete_relationships. any_run.
  all: eexists; split; [new_events|]; cbn; intros Hfail;
    first [reflexivity|discriminate Hfail].
Qed.

(** The lookup of the inverse type is rejected after the primary row was
    deleted. *)
Lemma delete_failure_keeps_tables_witness :
  let s := after (post_relationships calm alice Parent bob) (at_rest family) in
  exists evs,
    log (after (delete_relationships (failing_at 11) "r0") s) = evs ++ log s /\
    (any_failure evs = true ->
     durable (after (delete_relationships (failing_at 11) "r0") s) = durable s).
Proof.
  intros s.
  apply (@delete_failure_keeps_tables (failing_at 11) s "r0").
  reflexivity.
Defined.

(** ** The client and the response on every path *)

(** X3: on every path of create, update and delete the client is released
    as often as it was acquired, at most once, and a 500 is sent only right
    after a ROLLBACK that succeeded or after the failure to get a client. *)
Theorem writers_handle_client env s id m1 t m2 :
  (exists evs,
     log (after (post_relationships env m1 t m2) s) = evs ++ log s /\
     client_handled evs) /\
  (exists evs,
     log (after (put_relationships env id m1 t m2) s) = evs ++ log s /\
     client_handled evs) /\
  (exists evs,
     log (after (delete_relationships env id) s) = evs ++ log s /\
     client_handled evs).
Proof.
  split; [|split].
  - apply post_handles_client.
  - apply put_handles_client.
  - apply delete_handles_client.
Qed.

(** X4: when [pool.connect()] is rejected, update and delete send no
    statement and answer 500. *)
Theorem siblings_answer_when_connect_fails env s id m1 t m2 e :
  fault env (tick s) = Some e ->
  let answer :=
    Respond (mkResponse 500 (JError "Internal server error")) :: AcquireError :: log s in
  (outcome (put_relationships env id m1 t m2) s = inr tt /\
   log (after (put_relationships env id m1 t m2) s) = answer) /\
  (outcome (delete_relationships env id) s = inr tt /\
   log (after (delete_relationships env id) s) = answer).
Proof.
  intros Hf answer. split.
  - eapply put_answers_when_connect_fails; exact Hf.
  - eapply delete_answers_when_connect_fails; exact Hf.
Qed.

Lemma siblings_answer_when_connect_fails_witness :
  let answer :=
    [Respond (mkResponse 500 (JError "Internal server error")); AcquireError] in
  (outcome (put_relationships (failing_at 0) "r0" alice Spouse carol) (at_rest family)
   = inr tt /\
   log (after (put_relationships (failing_at 0) "r0" alice Spouse carol) (at_rest family))
   = answer) /\
  (outcome (delete_relationships (failing_at 0) "r0") (at_rest family) = inr tt /\
   log (after (delete_relationships (failing_at 0) "r0") (at_rest family)) = answer).
Proof.
  apply (@siblings_answer_when_connect_fails
           (failing_at 0) (at_rest family) "r0" alice Spouse carol (PgError "08006")).
  reflexivity.
Defined.

Ltac outcome_leaf :=
  eexists; split; [new_events|]; cbn; split; [lia|reflexivity].

(** X5: on every path of create, update and delete at most one response
    is sent, and a response below 300 is sent exactly when COMMIT was
    accepted. *)
Theorem success_is_answered_iff_committed env s id m1 t m2 :
  (exists evs,
     log (after (post_relationships env m1 t m2) s) = evs ++ log s /\
     length (responses evs) <= 1 /\ answers_success evs = commits evs) /\
  (exists evs,
     log (after (put_relationships env id m1 t m2) s) = evs ++ log s /\
     length (responses evs) <= 1 /\ answers_success evs = commits evs) /\
  (exists evs,
     log (after (delete_relationships env id) s) = evs ++ log s /\
     length (responses evs) <= 1 /\ answers_success evs = commits evs).
Proof.
  destruct s as [db tx cl tk uc lg]. cbn [log]. split; [|split].
  - after_as_wp. unfold post_relationships. destruct tx; any_run; outcome_leaf.
  - after_as_wp. unfold put_relationships. destruct tx; any_run; outcome_leaf.
  - after_as_wp. unfold delete_relationships. destruct tx; any_run; outcome_leaf.
Qed.

(** ** What the writers leave alone *)

(** X6: create, update and delete never change the members or the
    relationship types, whatever call fails. *)
Theorem writers_keep_members_and_types env s id m1 t m2 :
  txn s = None ->
  let same (s' : State) :=
    members (durable s') = members (durable s) /\
    relationship_types (durable s') = relationship_types (durable s) in
  same (after (post_relationships env m1 t m2) s) /\
  same (after (put_relationships env id m1 t m2) s) /\
  same (after (delete_relationships env id) s).
Proof.
  intros Htx. destruct s as [db tx cl tk uc lg]. cbn in Htx. subst tx.
  cbn zeta. cbn [durable]. split; [|split].
  - after_as_wp. unfold post_relationships. any_run; split; reflexivity.
  - after_as_wp. unfold put_relationships. any_run; split; reflexivity.
  - after_as_wp. unfold delete_relationships. any_run; split; reflexivity.
Qed.

Lemma writers_keep_members_and_types_witness :
  let s := after (post_relationships calm alice Parent bob) (at_rest family) in
  let same (s' : State) :=
    members (durable s') = members (durable s) /\
    relationship_types (durable s') = relationship_types (durable s) in
  same (after (post_relationships calm alice Spouse carol) s) /\
  same (after (put_relationships calm "r0" alice Spouse carol) s) /\
  same (after (delete_relationships calm "r0") s).
Proof.
  intros s.
  apply (@writers_keep_members_and_types calm s "r0" alice Spouse carol).
  reflexivity.
Defined.

(** X7: a create only appends: whatever call fails, the relationships
    afterwards are those before, in their order, followed by at most two
    new rows. *)
Theorem create_only_appends env s m1 t m2 :
  txn s = None ->
  exists rows,
    relationships (durable (after (post_relationships env m1 t m2) s))
    = relationships (durable s) ++ rows /\
    length rows <= 2.
Proof.
  intros Htx. destruct s as [db tx cl tk uc lg]. cbn in Htx. subst tx.
  cbn [durable]. after_as_wp. unfold post_relationships. any_run.
  all: first
         [ exists []; rewrite app_nil_r; split; [reflexivity|cbn; lia]
         | eexists; split; [reflexivity|cbn; lia]
         | eexists; split; [rewrite <- app_assoc; reflexivity|cbn; lia] ].
Qed.

Lemma create_only_appends_witness :
  let s := after (post_relationships calm alice Parent bob) (at_rest family) in
  exists rows,
    relationships (durable (after (post_relationships calm bob Spouse carol) s))
    = relationships (durable s) ++ rows /\
    length rows <= 2.
Proof.
  intros s.
  apply (@create_only_appends calm s bob Spouse carol).
  reflexivity.
Defined.

(** X8: a delete only removes: whatever call fails, every relationship
    row afterwards was a row before. *)
Theorem delete_only_removes env s id :
  txn s = None ->
  incl (relationships (durable (after (delete_relationships env id) s)))
       (relationships (durable s)).
Proof.
  intros Htx. destruct s as [db tx cl tk uc lg]. cbn in Htx. subst tx.
  cbn [durable]. after_as_wp. unfold delete_relationships. any_run.
  all: intros kept Hkept; cbn [relationships] in Hkept;
    repeat (apply filter_In in Hkept; destruct Hkept as [Hkept _]); exact Hkept.
Qed.

Lemma delete_only_removes_witness :
  let s := after (post_relationships calm alice Parent bob) (at_rest family) in
  txn s = None /\
  incl (relationships (durable (after (delete_relationships calm "r0") s)))
       (relationships (durable s)).
Proof.
  intros s. split; [reflexivity|].
  apply (@delete_only_removes calm s "r0").
  reflexivity.
Defined.

Lemma kept_by_update m1 t m2 id r l :
  In r l -> has_id id r = false -> In r (map (set_relationship m1 t m2 id) l).
Proof.
  intros Hin Hid. apply in_map_iff. exists r. split; [|exact Hin].
  unfold set_relationship. rewrite Hid. reflexivity.
Qed.

(** X9: an update touches the rows of its identifier and the old inverse
    only: whatever call fails, a row that has another identifier and does
    not match (old object, old inverse type, old subject) is still there
    afterwards. *)
Theorem update_keeps_other_rows env s id old rest m1 t m2 r :
  txn s = None ->
  filter (has_id id) (relationships (durable s)) = old :: rest ->
  In r (relationships (durable s)) ->
  has_id id r = false ->
  (forall inverse,
     inverseOf (durable s) (relationship_type_id old) = Some inverse ->
     matches (member_id_2 old) inverse (member_id_1 old) r = false) ->
  In r (relationships (durable (after (put_relationships env id m1 t m2) s))).
Proof.
  intros Htx Hrow Hin Hid Hpat.
  destruct s as [db tx cl tk uc lg]. cbn in Htx, Hrow, Hin, Hpat. subst tx.
  cbn [durable]. after_as_wp. unfold put_relationships. any_run.
  all: cbn [relationships]; try exact Hin.
  all: rewrite ?in_app_iff; try left; apply kept_by_update; try exact Hid;
    try exact Hin.
  all: apply filter_In; split; [exact Hin|]; rewrite (Hpat _ eq_refl); reflexivity.
Qed.

Lemma update_keeps_other_rows_witness :
  let s := after (post_relationships calm bob Friend carol)
                 (after (post_relationships calm alice Parent bob) (at_rest family)) in
  has_id "r0" (mkRelationship "r2" bob Friend carol) = false /\
  In (mkRelationship "r2" bob Friend carol)
     (relationships (durable (after (put_relationships calm "r0" alice Spouse carol) s))).
Proof.
  intros s. split; [reflexivity|].
  apply (@update_keeps_other_rows calm s "r0" (mkRelationship "r0" alice Parent bob) []
           alice Spouse carol (mkRelationship "r2" bob Friend carol)).
  - reflexivity.
  - reflexivity.
  - cbn. tauto.
  - reflexivity.
  - intros inverse H. vm_compute in H. injection H as <-. reflexivity.
Defined.

(** ** Create and delete without an inverse row *)

(** X10: with no failing call, a create whose type declares no inverse
    commits the primary row alone, without any query for an inverse row. *)
Theorem create_without_inverse_type env s A T B :
  no_faults env ->
  txn s = None ->
  fk_ok (durable s) A T B = true ->
  inverseOf (durable s) T = None ->
  let i1 := uuidv4_at env (uuid_ctr s) in
  let s' := after (post_relationships env A T B) s in
  relationships (durable s') = relationships (durable s) ++ [mkRelationship i1 A T B] /\
  log s' = rev (trace_without_inverse_step i1 A T B) ++ log s.
Proof.
  intros Hnf Htx Hfk Hi i1 s'.
  assert (Hinv : forall inv, inverseOf (durable s) T = Some inv ->
                             type_exists (durable s) inv = true)
    by (intros inv H; rewrite Hi in H; discriminate H).
  destruct (post_relationships_calm s A T B Hnf Htx Hfk Hinv)
    as (_ & Hdb & _ & _ & Hlog).
  fold i1 in Hdb, Hlog. fold s' in Hdb, Hlog.
  unfold created, inverse_added in Hdb. unfold create_trace in Hlog.
  rewrite Hi in Hdb, Hlog. split.
  - rewrite Hdb. reflexivity.
  - exact Hlog.
Qed.

Lemma create_without_inverse_type_witness :
  relationships (durable (after (post_relationships calm alice Friend bob)
                                (at_rest family)))
  = [] ++ [mkRelationship "r0" alice Friend bob] /\
  log (after (post_relationships calm alice Friend bob) (at_rest family))
  = rev (trace_without_inverse_step "r0" alice Friend bob) ++ [].
Proof.
  apply (@create_without_inverse_type calm (at_rest family) alice Friend bob).
  - intros n. reflexivity.
  - reflexivity.
  - reflexivity.
  - reflexivity.
Defined.

(** X11: with no failing call, deleting a relationship whose type
    declares no inverse, or the degenerate self-loop of a self-inverse
    type, removes the rows of the identifier and nothing else: no delete
    by pattern is sent. *)
Theorem delete_without_inverse_pattern env s id old rest :
  no_faults env ->
  txn s = None ->
  filter (has_id id) (relationships (durable s)) = old :: rest ->
  match inverseOf (durable s) (relationship_type_id old) with
  | None => True
  | Some inverse =>
      degenerate inverse (relationship_type_id old) (member_id_1 old) (member_id_2 old)
      = true
  end ->
  let s' := after (delete_relationships env id) s in
  relationships (durable s')
    = filter (fun r => negb (has_id id r)) (relationships (durable s)) /\
  log s'
    = rev [Acquire; Query BEGIN; Query (SELECT_relationship id);
           Query (DELETE_relationship id);
           Query (SELECT_inverse_type_id (relationship_type_id old)); Query COMMIT;
           Respond (mkResponse 200 (JMessage "Relationship(s) deleted successfully!"));
           Release]
      ++ log s.
Proof.
  intros Hnf Htx Hrow Hcase.
  destruct s as [db tx cl tk uc lg]. cbn in Htx, Hrow, Hcase. subst tx.
  cbn zeta. cbn [durable log].
  destruct (inverseOf db (relationship_type_id old)) as [inverse|] eqn:Hi;
    after_as_wp; unfold delete_relationships; calm_run Hnf; split; reflexivity.
Qed.

Lemma delete_without_inverse_pattern_witness :
  let s := after (post_relationships calm alice Spouse alice) (at_rest family) in
  relationships (durable (after (delete_relationships calm "r0") s))
    = filter (fun r => negb (has_id "r0" r)) (relationships (durable s)) /\
  log (after (delete_relationships calm "r0") s)
    = rev [Acquire; Query BEGIN; Query (SELECT_relationship "r0");
           Query (DELETE_relationship "r0");
           Query (SELECT_inverse_type_id Spouse); Query COMMIT;
           Respond (mkResponse 200 (JMessage "Relationship(s) deleted successfully!"));
           Release]
      ++ log s.
Proof.
  intros s.
  apply (@delete_without_inverse_pattern
           calm s "r0" (mkRelationship "r0" alice Spouse alice) []).
  - intros n. reflexivity.
  - reflexivity.
  - reflexivity.
  - reflexivity.
Defined.

(** ** Create, then delete *)

Lemma filter_negb_none {A} (p : A -> bool) (l : list A) :
  existsb p l = false -> filter (fun x => negb (p x)) l = l.
Proof.
  induction l as [|x l IH]; [reflexivity|].
  cbn. intros H. apply orb_false_iff in H. destruct H as [Hx Hl].
  rewrite Hx. cbn. rewrite (IH Hl). reflexivity.
Qed.

Lemma with_relationships_same db db' :
  members db' = members db ->
  relationship_types db' = relationship_types db ->
  with_relationships (relationships db) db' = db.
Proof. destruct db, db'; cbn. intros -> ->. reflexivity. Qed.

Lemma created_shape db i1 i2 A T B :
  exists tail,
    created db i1 i2 A T B = relationships db ++ mkRelationship i1 A T B :: tail /\
    (tail = [] \/
     exists inverse,
       inverseOf db T = Some inverse /\ degenerate inverse T A B = false /\
       tail = [mkRelationship i2 B inverse A]).
Proof.
  unfold created, inverse_added.
  destruct (inverseOf db T) as [inverse|] eqn:Hi.
  - destruct (degenerate inverse T A B) eqn:Hd.
    + exists []. split; [reflexivity|left; reflexivity].
    + destruct (existsb (matches B inverse A) _).
      * exists []. split; [reflexivity|left; reflexivity].
      * exists [mkRelationship i2 B inverse A]. split.
        -- rewrite <- app_assoc. reflexivity.
        -- right. exists inverse. repeat split; assumption.
  - exists []. split; [reflexivity|left; reflexivity].
Qed.

(** X12: with no failing call, creating a relationship and then deleting
    it by the identifier it was given restores the tables, provided the
    identifier was not in use and, when an inverse row is due, no row
    (object, inverse type, subject) was there before. *)
Theorem create_then_delete_restores env s A T B :
  no_faults env ->
  txn s = None ->
  fk_ok (durable s) A T B = true ->
  (forall inverse, inverseOf (durable s) T = Some inverse ->
                   type_exists (durable s) inverse = true) ->
  let i1 := uuidv4_at env (uuid_ctr s) in
  existsb (has_id i1) (relationships (durable s)) = false ->
  (forall inverse,
     inverseOf (durable s) T = Some inverse ->
     degenerate inverse T A B = false ->
     existsb (matches B inverse A) (relationships (durable s)) = false) ->
  let s1 := after (post_relationships env A T B) s in
  durable (after (delete_relationships env i1) s1) = durable s.
Proof.
  intros Hnf Htx Hfk Hinv i1 Hfresh Hnone s1.
  destruct (post_relationships_calm s A T B Hnf Htx Hfk Hinv)
    as (_ & Hdb1 & Htx1 & _).
  fold i1 in Hdb1. fold s1 in Hdb1, Htx1.
  set (i2 := uuidv4_at env (S (uuid_ctr s))) in *.
  destruct (created_shape (durable s) i1 i2 A T B) as (tail & Hshape & Htail).
  rewrite Hshape in Hdb1.
  set (p := mkRelationship i1 A T B) in *.
  assert (Hp : has_id i1 p = true) by apply String.eqb_refl.
  assert (Hnot : filter (has_id i1) (relationships (durable s)) = [])
    by (apply filter_nil_iff; exact Hfresh).
  assert (Hkeep : filter (fun r => negb (has_id i1 r)) (relationships (durable s))
                  = relationships (durable s))
    by (apply filter_negb_none; exact Hfresh).
  assert (Hrow : filter (has_id i1) (relationships (durable s1))
                 = p :: filter (has_id i1) tail).
  { rewrite Hdb1. cbn [with_relationships relationships].
    rewrite filter_app, Hnot. cbn [filter app]. rewrite Hp. reflexivity. }
  destruct (delete_relationships_calm s1 i1 Hnf Htx1 Hrow) as (_ & Hdb2 & _).
  rewrite Hdb2.
  replace (deleted (durable s1) i1 p) with (relationships (durable s)).
  { apply with_relationships_same; rewrite Hdb1; reflexivity. }
  unfold deleted, old_inverse_removed.
  replace (inverseOf (durable s1) (relationship_type_id p))
    with (inverseOf (durable s) T) by (rewrite Hdb1; reflexivity).
  replace (relationships (durable s1))
    with (relationships (durable s) ++ p :: tail) by (rewrite Hdb1; reflexivity).
  rewrite filter_app, Hkeep. cbn [filter]. rewrite Hp. cbn [negb].
  cbn [relationship_type_id member_id_1 member_id_2 p].
  destruct Htail as [->|(inverse & Hi & Hd & ->)].
  - cbn [filter]. rewrite app_nil_r.
    destruct (inverseOf (durable s) T) as [inverse|] eqn:Hi; [|reflexivity].
    destruct (degenerate inverse T A B) eqn:Hd; [reflexivity|].
    symmetry. apply filter_negb_none. exact (Hnone _ eq_refl Hd).
  - rewrite Hi, Hd, filter_app.
    rewrite (filter_negb_none _ _ (Hnone _ Hi Hd)).
    cbn [filter].
    destruct (has_id i1 (mkRelationship i2 B inverse A)); cbn [negb filter];
      rewrite ?matches_self; cbn [negb]; rewrite app_nil_r; reflexivity.
Qed.

Lemma create_then_delete_restores_witness :
  durable (after (delete_relationships calm "r0")
                 (after (post_relationships calm alice Parent bob) (at_rest family)))
  = family.
Proof.
  apply (@create_then_delete_restores calm (at_rest family) alice Parent bob).
  - intros n. reflexivity.
  - reflexivity.
  - reflexivity.
  - intros inverse H. vm_compute in H. injection H as <-. reflexivity.
  - reflexivity.
  - intros inverse _ _. reflexivity.
Defined.

(** * Further properties of the single-statement handlers *)

(** ** Deleting a member *)



(** X14: a DELETE of an identifier that no member has is answered 404 and
    changes nothing. *)
Theorem delete_unknown_member env s id :
  fault env (tick s) = None ->
  member_exists (durable s) id = false ->
  let s' := after (delete_members env id) s in
  durable s' = durable s /\
  log s' = Respond (mkResponse 404 (JError "Member not found"))
           :: Query (DELETE_member id) :: log s.
Proof.
  intros Hf Hex. apply filter_nil_iff in Hex.
  destruct s as [db tx cl tk uc lg]. cbn in Hf, Hex. cbn zeta. cbn [durable log].
  after_as_wp. unfold delete_members.
  repeat (first [wp_step | data_step]; try congruence).
  split; reflexivity.
Qed.

Lemma delete_unknown_member_witness :
  durable (after (delete_members calm "m-dave") (at_rest family)) = family /\
  log (after (delete_members calm "m-dave") (at_rest family))
  = Respond (mkResponse 404 (JError "Member not found"))
    :: Query (DELETE_member "m-dave") :: [].
Proof.
  apply (@delete_unknown_member calm (at_rest family) "m-dave").
  - reflexivity.
  - reflexivity.
Defined.

Lemma gone_after_filter id (ms : list Member) :
  existsb (fun x => m_id x =? id) (filter (fun x => negb (m_id x =? id)) ms) = false.
Proof.
  induction ms as [|m ms IH]; [reflexivity|].
  cbn. destruct (m_id m =? id) eqn:H; cbn; rewrite ?H; exact IH.
Qed.

(** X15: a DELETE of a member that no relationship references is answered
    200 with the first row of that identifier; every row of the identifier
    is removed, the other members and the relationships stay. *)
Theorem delete_unreferenced_member env s id m rest :
  fault env (tick s) = None ->
  filter (fun x => m_id x =? id) (members (durable s)) = m :: rest ->
  member_referenced (durable s) id = false ->
  let s' := after (delete_members env id) s in
  log s' = Respond (mkResponse 200 (JMemberDeleted "Member deleted successfully" m))
           :: Query (DELETE_member id) :: log s /\
  members (durable s') = filter (fun x => negb (m_id x =? id)) (members (durable s)) /\
  member_exists (durable s') id = false /\
  relationships (durable s') = relationships (durable s).
Proof.
  intros Hf Hrow Href.
  destruct s as [db tx cl tk uc lg]. cbn in Hf, Hrow, Href. cbn zeta. cbn [durable log].
  after_as_wp. unfold delete_members.
  repeat (first [wp_step | data_step]; try congruence).
  repeat split; try reflexivity.
  unfold member_exists. cbn [members]. apply gone_after_filter.
Qed.

Lemma delete_unreferenced_member_witness :
  let s := after (post_relationships calm alice Parent bob) (at_rest family) in
  let s' := after (delete_members calm carol) s in
  log s' = Respond (mkResponse 200 (JMemberDeleted "Member deleted successfully"
                                                   (person carol "Carol")))
           :: Query (DELETE_member carol) :: log s /\
  members (durable s') = filter (fun x => negb (m_id x =? carol)) (members (durable s)) /\
  member_exists (durable s') carol = false /\
  relationships (durable s') = relationships (durable s).
Proof.
  intros s.
  apply (@delete_unreferenced_member calm s carol (person carol "Carol") []).
  - reflexivity.
  - reflexivity.
  - reflexivity.
Defined.

(** ** The older variant's create *)

(** X16: the older variant's POST for two different members, when its
    statement is accepted, writes exactly the row it was asked for and
    answers 201 with it; it looks up no inverse type and writes no
    inverse row, whatever the type declares. *)
Theorem post_v0_writes_one_row env s m1 m2 t :
  m1 <> m2 ->
  fault env (tick s) = None ->
  fk_ok (durable s) m1 t m2 = true ->
  let row := mkRelationship (uuidv4_at env (uuid_ctr s)) m1 t m2 in
  let s' := after (post_relationships_v0 env m1 m2 t) s in
  relationships (durable s') = relationships (durable s) ++ [row] /\
  log s' = Respond (mkResponse 201 (JRelationship row))
           :: Query (INSERT_relationship_returning m1 m2 t) :: log s.
Proof.
  intros Hne Hf Hfk. apply String.eqb_neq in Hne.
  destruct s as [db tx cl tk uc lg]. cbn in Hf, Hfk. cbn zeta.
  cbn [durable log uuid_ctr].
  after_as_wp. unfold post_relationships_v0.
  repeat (first [wp_step | data_step]; try congruence).
  split; reflexivity.
Qed.

Lemma post_v0_writes_one_row_witness :
  relationships (durable (after (post_relationships_v0 calm alice bob Parent)
                                (at_rest family)))
  = [] ++ [mkRelationship "r0" alice Parent bob] /\
  log (after (post_relationships_v0 calm alice bob Parent) (at_rest family))
  = Respond (mkResponse 201 (JRelationship (mkRelationship "r0" alice Parent bob)))
    :: Query (INSERT_relationship_returning alice bob Parent) :: [].
Proof.
  apply (@post_v0_writes_one_row calm (at_rest family) alice bob Parent).
  - discriminate.
  - reflexivity.
  - reflexivity.
Defined.

(** X17: when the statement of the older variant's POST is rejected, for
    an outside reason or because a member or the type does not exist, the
    answer is 500 and no table changes. *)
Theorem post_v0_failure_answers_500 env s m1 m2 t :
  m1 <> m2 ->
  fault env (tick s) <> None \/ fk_ok (durable s) m1 t m2 = false ->
  let s' := after (post_relationships_v0 env m1 m2 t) s in
  durable s' = durable s /\
  log s' = Respond (mkResponse 500 (JError "Internal Server Error"))
           :: QueryError (INSERT_relationship_returning m1 m2 t) :: log s.
Proof.
  intros Hne Hfail. apply String.eqb_neq in Hne.
  destruct s as [db tx cl tk uc lg]. cbn in Hfail. cbn zeta. cbn [durable log].
  after_as_wp. unfold post_relationships_v0.
  repeat (first [wp_step | data_step]; try congruence).
  all: try (split; reflexivity).
  all: exfalso; destruct Hfail as [Hfail|Hfail]; congruence.
Qed.

Lemma post_v0_failure_answers_500_witness :
  durable (after (post_relationships_v0 calm alice "m-dave" Parent) (at_rest family))
  = family /\
  log (after (post_relationships_v0 calm alice "m-dave" Parent) (at_rest family))
  = Respond (mkResponse 500 (JError "Internal Server Error"))
    :: QueryError (INSERT_relationship_returning alice "m-dave" Parent) :: [].
Proof.
  apply (@post_v0_failure_answers_500 calm (at_rest family) alice "m-dave" Parent).
  - discriminate.
  - right. reflexivity.
Defined.

(** ** Members: create, read, update *)

Lemma set_member_id id f mi l b d a m :
  m_id (set_member id f mi l b d a m) = m_id m.
Proof. unfold set_member. destruct (m_id m =? id); reflexivity. Qed.

Lemma set_member_ids id f mi l b d a ms :
  map m_id (map (set_member id f mi l b d a) ms) = map m_id ms.
Proof.
  induction ms as [|m ms IH]; [reflexivity|].
  cbn. rewrite set_member_id, IH. reflexivity.
Qed.

Lemma filter_set_member id f mi l b d a ms :
  filter (fun m => m_id m =? id) (map (set_member id f mi l b d a) ms)
  = map (set_member id f mi l b d a) (filter (fun m => m_id m =? id) ms).
Proof.
  induction ms as [|m ms IH]; [reflexivity|].
  cbn. rewrite set_member_id. destruct (m_id m =? id); cbn; rewrite IH; reflexivity.
Qed.

Lemma set_member_miss id f mi l b d a ms :
  filter (fun m => m_id m =? id) ms = [] ->
  map (set_member id f mi l b d a) ms = ms.
Proof.
  induction ms as [|m ms IH]; [reflexivity|].
  cbn. unfold set_member at 1. destruct (m_id m =? id); [discriminate|].
  intros H. rewrite (IH H). reflexivity.
Qed.

Lemma with_members_same db : with_members (members db) db = db.
Proof. destruct db; reflexivity. Qed.

(** X18: an update of a member, in either variant and whatever happens
    to its statement, leaves the identifiers of the members table as
    they were, row by row, and changes no other table: no relationship
    loses a member it references. *)
Theorem member_update_keeps_identifiers fault id f mi l b d a db :
  let same (db' : DB) :=
    map m_id (members db') = map m_id (members db) /\
    relationship_types db' = relationship_types db /\
    relationships db' = relationships db in
  same (snd (put_members fault id f mi l b d a db)) /\
  same (snd (put_member_v0 fault id f mi l b d a db)).
Proof.
  cbn zeta. unfold put_members, put_member_v0, pool_query_once, update_member.
  destruct fault as [e|].
  - split; [|repeat split; reflexivity].
    destruct (err_code e) as [c|]; [destruct (c =? "23503")|];
      repeat split; reflexivity.
  - rewrite filter_set_member.
    destruct (filter _ (members db)); cbn; rewrite set_member_ids;
      repeat split; reflexivity.
Qed.

(** X19: when the statement is accepted, an update of a member whose
    identifier exists is answered 200 with the new values under the same
    identifier, and every member of another identifier is kept as it was;
    for an identifier that no member has the answer is 404 and nothing
    changes. *)
Theorem member_update_hits_or_misses id f mi l b d a db :
  (forall m rest,
     filter (fun x => m_id x =? id) (members db) = m :: rest ->
     fst (put_members None id f mi l b d a db)
     = mkMemberResponse 200 (MRow (mkMember id f mi l b d a)) /\
     forall x, In x (members db) -> m_id x <> id ->
               In x (members (snd (put_members None id f mi l b d a db)))) /\
  (member_exists db id = false ->
   put_members None id f mi l b d a db
   = (mkMemberResponse 404 (MError "Member not found"), db)).
Proof.
  unfold put_members, pool_query_once, update_member. rewrite filter_set_member.
  split.
  - intros m rest Hrow. rewrite Hrow. cbn [map fst snd]. split.
    + assert (Hm : (m_id m =? id) = true).
      { assert (Hin : In m (filter (fun x => m_id x =? id) (members db)))
          by (rewrite Hrow; left; reflexivity).
        apply filter_In in Hin. tauto. }
      unfold set_member. rewrite Hm. apply String.eqb_eq in Hm. rewrite Hm.
      reflexivity.
    + intros x Hin Hne. cbn [with_members members]. apply in_map_iff.
      exists x. split; [|exact Hin].
      unfold set_member. apply String.eqb_neq in Hne. rewrite Hne. reflexivity.
  - intros Hex. apply filter_nil_iff in Hex. rewrite Hex. cbn [map].
    rewrite (set_member_miss _ _ _ _ _ _ _ _ Hex), with_members_same. reflexivity.
Qed.

Lemma member_update_hits_or_misses_witness :
  (fst (put_members None bob "Robert" None "Kamara" None None true family)
   = mkMemberResponse 200 (MRow (mkMember bob "Robert" None "Kamara" None None true)) /\
   forall x, In x (members family) -> m_id x <> bob ->
             In x (members (snd (put_members None bob "Robert" None "Kamara"
                                            None None true family)))) /\
  put_members None "m-dave" "Dave" None "Kamara" None None true family
  = (mkMemberResponse 404 (MError "Member not found"), family).
Proof.
  split.
  - apply (proj1 (member_update_hits_or_misses bob "Robert" None "Kamara" None None
                    true family) (person bob "Bob") []).
    reflexivity.
  - apply (proj2 (member_update_hits_or_misses "m-dave" "Dave" None "Kamara" None None
                    true family)).
    reflexivity.
Defined.

Lemma filter_fresh_member id m (ms : list Member) :
  existsb (fun x => m_id x =? id) ms = false ->
  m_id m = id ->
  filter (fun x => m_id x =? id) (ms ++ [m]) = [m].
Proof.
  intros Hfresh Hid. rewrite filter_app.
  rewrite (proj2 (filter_nil_iff _ _) Hfresh). cbn.
  rewrite Hid, String.eqb_refl. reflexivity.
Qed.

(** X20: in the older variant, a member that was created under an
    identifier not yet in use is what a read of that identifier returns. *)
Theorem post_then_get_member id f mi l b d a db :
  member_exists db id = false ->
  let db1 := snd (post_members_v0 None id f mi l b d a db) in
  fst (post_members_v0 None id f mi l b d a db)
  = mkMemberResponse 201 (MRow (mkMember id f mi l b d a)) /\
  get_member_v0 None id db1
  = (mkMemberResponse 200 (MRow (mkMember id f mi l b d a)), db1).
Proof.
  intros Hfresh. cbn zeta.
  unfold post_members_v0, get_member_v0, pool_query_once, insert_member, select_member.
  cbn [fst snd row0_json with_members members].
  rewrite (filter_fresh_member (mkMember id f mi l b d a) _ Hfresh eq_refl).
  split; reflexivity.
Qed.

Lemma post_then_get_member_witness :
  let db1 := snd (post_members_v0 None "m-dave" "Dave" None "Kamara" None None true
                                  family) in
  fst (post_members_v0 None "m-dave" "Dave" None "Kamara" None None true family)
  = mkMemberResponse 201 (MRow (mkMember "m-dave" "Dave" None "Kamara" None None true)) /\
  get_member_v0 None "m-dave" db1
  = (mkMemberResponse 200 (MRow (mkMember "m-dave" "Dave" None "Kamara" None None true)),
     db1).
Proof.
  apply (@post_then_get_member "m-dave" "Dave" None "Kamara" None None true family).
  reflexivity.
Defined.

Lemma filter_out_fresh_member id m (ms : list Member) :
  existsb (fun x => m_id x =? id) ms = false ->
  m_id m = id ->
  filter (fun x => negb (m_id x =? id)) (ms ++ [m]) = ms.
Proof.
  intros Hfresh Hid. rewrite filter_app.
  rewrite (filter_negb_none (fun x => m_id x =? id) ms Hfresh). cbn.
  rewrite Hid, String.eqb_refl. cbn. apply app_nil_r.
Qed.

(** X21: a member created by server.js under an identifier not yet in
    use, and referenced by no relationship, is removed again by a DELETE
    of that identifier: the tables are those before the create. *)
Theorem post_then_delete_member env s1 id f mi l b d a db :
  member_exists db id = false ->
  member_referenced db id = false ->
  durable s1 = snd (post_members None id f mi l b d a db) ->
  fault env (tick s1) = None ->
  durable (after (delete_members env id) s1) = db /\
  log (after (delete_members env id) s1)
  = Respond (mkResponse 200 (JMemberDeleted "Member deleted successfully"
                                            (mkMember id f mi l b d a)))
    :: Query (DELETE_member id) :: log s1.
Proof.
  intros Hfresh Href Hdb Hf.
  unfold post_members, pool_query_once, insert_member in Hdb. cbn [snd] in Hdb.
  unfold member_exists in Hfresh.
  pose proof (filter_fresh_member (mkMember id f mi l b d a) _ Hfresh eq_refl) as Hrow.
  pose proof (filter_out_fresh_member (mkMember id f mi l b d a) _ Hfresh eq_refl)
    as Hout.
  assert (Href' : member_referenced
                    (with_members (members db ++ [mkMember id f mi l b d a]) db) id
                  = false) by exact Href.
  destruct s1 as [db1 tx cl tk uc lg]. cbn in Hdb, Hf. subst db1.
  cbn [durable log]. after_as_wp. unfold delete_members.
  repeat (first [wp_step | data_step]; try congruence).
  split; [|reflexivity].
  destruct db; reflexivity.
Qed.

Lemma post_then_delete_member_witness :
  let s1 := at_rest (snd (post_members None "m-dave" "Dave" None "Kamara" None None true
                                       family)) in
  durable (after (delete_members calm "m-dave") s1) = family /\
  log (after (delete_members calm "m-dave") s1)
  = Respond (mkResponse 200 (JMemberDeleted "Member deleted successfully"
                               (mkMember "m-dave" "Dave" None "Kamara" None None true)))
    :: Query (DELETE_member "m-dave") :: log s1.
Proof.
  intros s1.
  apply (@post_then_delete_member calm s1 "m-dave" "Dave" None "Kamara" None None true
           family).
  - reflexivity.
  - reflexivity.
  - reflexivity.
  - reflexivity.
Defined.

(** X22: the older variant answers a DELETE of a member that a
    relationship references with 500, not 400, and changes nothing; it
    answers 404 for an identifier no member has. *)
Theorem delete_member_v0_outcomes id db :
  (member_exists db id = true ->
   member_referenced db id = true ->
   delete_member_v0 None id db
   = (mkMemberResponse 500 (MError "Internal Server Error"), db)) /\
  (member_exists db id = false ->
   delete_member_v0 None id db
   = (mkMemberResponse 404 (MError "Member not found"), db)).
Proof.
  unfold delete_member_v0, pool_query_once, delete_member, member_exists. split.
  - intros Hex Href.
    destruct (filter (fun m => m_id m =? id) (members db)) eqn:Hrow.
    + apply filter_nil_iff in Hrow. congruence.
    + rewrite Href. reflexivity.
  - intros Hex. apply filter_nil_iff in Hex. rewrite Hex. reflexivity.
Qed.

Lemma delete_member_v0_outcomes_witness :
  let db := durable (after (post_relationships calm alice Parent bob) (at_rest family)) in
  delete_member_v0 None alice db
  = (mkMemberResponse 500 (MError "Internal Server Error"), db) /\
  delete_member_v0 None "m-dave" db
  = (mkMemberResponse 404 (MError "Member not found"), db).
Proof.
  intros db. split.
  - apply (proj1 (delete_member_v0_outcomes alice db)); reflexivity.
  - apply (proj2 (delete_member_v0_outcomes "m-dave" db)); reflexivity.
Defined.
